(** * Verification of [utils.py] (IT-data helper routines)

    A shallow embedding of the helper functions of [src/utils.py]:
    label encoding ([encode_object_base_labels]), the download guard
    ([download_it_data]), the PCA helpers ([compute_pca], [get_pca]), the
    metrics bundle ([compute_metrics]) and the de-normalisation step of
    [visualize_img].

    Conventions.
    - Python [str] values are Rocq strings.  The object names handled by
      [utils.py] come from [bytes.decode("latin-1")] in [load_it_data], so
      every character is a code point below 256, which is what [ascii] is.
    - A function that may raise returns a [result].
    - Functions that touch the file system, the network or the standard
      output are written in a state-and-exception monad over [World].
    - Floating-point numbers are idealised as real numbers; a NaN produced by
      a library routine is modelled explicitly where a claim depends on it. *)

From Stdlib Require Import Reals Lra Ascii String.
From Stdlib Require PrimFloat.
From stdpp Require Import gmap strings list fin_maps sorting pretty.

Local Open Scope string_scope.
Local Open Scope nat_scope.

(** ** Exceptions and results *)

Inductive exn : Type :=
  | AttributeError
  | KeyError
  | ValueError
  | FileNotFoundError
  | IsADirectoryError
  | UnpicklingError
  | IndexError
  | NetworkError.

Inductive result (A : Type) : Type :=
  | Return (a : A)
  | Raise (e : exn).
Arguments Return {A} a.
Arguments Raise {A} e.

Definition result_bind {A B} (r : result A) (k : A → result B) : result B :=
  match r with
  | Return a => k a
  | Raise e => Raise e
  end.

(** [[f x for x in l]] where [f] may raise: the first failing element aborts
    the comprehension. *)
Fixpoint list_comprehension {A B} (f : A → result B) (l : list A) : result (list B) :=
  match l with
  | [] => Return []
  | x :: l' =>
      result_bind (f x) (λ y,
      result_bind (list_comprehension f l') (λ ys, Return (y :: ys)))
  end.

(** ** Label encoding *)

Module Labels.

(** The character class [[a-zA-Z]]. *)
Definition is_ascii_letter (c : ascii) : bool :=
  let n := nat_of_ascii c in
  ((65 <=? n) && (n <=? 90)) || ((97 <=? n) && (n <=? 122)).

(** The character class [[0-9]]. *)
Definition is_ascii_digit (c : ascii) : bool :=
  let n := nat_of_ascii c in
  (48 <=? n) && (n <=? 57).

(** The greedy run matched by [[a-zA-Z]*] at the start of a string. *)
Fixpoint leading_letters (s : string) : string :=
  match s with
  | EmptyString => EmptyString
  | String c s' =>
      if is_ascii_letter c then String c (leading_letters s') else EmptyString
  end.

(** [re.match(r'[a-zA-Z]+', obj)]: [None] when no letter starts [obj],
    otherwise the match object, represented by the matched text. *)
Definition re_match_letters (obj : string) : option string :=
  match leading_letters obj with
  | EmptyString => None
  | m => Some m
  end.

(** [re.match(r'[a-zA-Z]+', obj).group()]: calling [.group()] on [None]
    raises [AttributeError]. *)
Definition base_name (obj : string) : result string :=
  match re_match_letters obj with
  | Some m => Return m
  | None => Raise AttributeError
  end.

(** Python compares strings lexicographically by code point. *)
Definition str_le (a b : string) : Prop := String.leb a b = true.

Global Instance str_le_dec a b : Decision (str_le a b).
Proof. unfold str_le. apply _. Defined.

(** [sorted(set(xs))]: the set is a [gset]; [sorted] is a merge sort, as
    Python's is. *)
Definition sorted_set (xs : list string) : list string :=
  merge_sort str_le (elements (list_to_set xs : gset string)).

(** [enumerate(l)]. *)
Definition enumerate {A} (l : list A) : list (nat * A) :=
  zip (seq 0 (length l)) l.

(** [{base: idx for idx, base in enumerate(bases)}]: keys are inserted from
    left to right, a later key overwriting an earlier equal one. *)
Definition dict_of_enumerate (bases : list string) : gmap string nat :=
  foldl (λ (d : gmap string nat) '(idx, base), <[base := idx]> d) ∅ (enumerate bases).

(** [label_dict[base]]. *)
Definition dict_getitem {V} (d : gmap string V) (k : string) : result V :=
  match d !! k with
  | Some v => Return v
  | None => Raise KeyError
  end.

Definition encode_object_base_labels (objects_train : list string)
  : result (gmap string nat * list nat) :=
  result_bind (list_comprehension base_name objects_train) (λ base_names,
  let unique_bases := sorted_set base_names in
  let label_dict := dict_of_enumerate unique_bases in
  result_bind (list_comprehension (dict_getitem label_dict) base_names) (λ object_labels,
  Return (label_dict, object_labels))).

(** The reading of "trailing digits removed" taken from the specification's
    words: drop the maximal run of digits at the end of the string. *)
Fixpoint strip_trailing_digits_spec (s : string) : string :=
  match s with
  | EmptyString => EmptyString
  | String c s' =>
      match strip_trailing_digits_spec s' with
      | EmptyString => if is_ascii_digit c then EmptyString else String c EmptyString
      | r => String c r
      end
  end.

End Labels.

(** ** Arrays of real numbers *)

Module Numpy.

Definition vector := list R.
Definition matrix := list (list R).

(** A float that may be NaN. *)
Inductive xreal : Type :=
  | Finite (r : R)
  | NaN.

Global Instance R_eq_dec : EqDecision R := Req_dec_T.

(** [X.shape[0]] and [X.shape[1]] of a two-dimensional array stored as its
    list of rows. *)
Definition nrows (X : matrix) : nat := length X.
Definition ncols (X : matrix) : nat :=
  match X with
  | [] => 0
  | row :: _ => length row
  end.

(** [X] is an array of shape [(N, D)]. *)
Definition has_shape (X : matrix) (N D : nat) : Prop :=
  length X = N ∧ Forall (λ row, length row = D) X.

Definition Rsum (v : vector) : R := foldr Rplus 0%R v.

(** [np.mean(v)] *)
Definition mean (v : vector) : R := (Rsum v / INR (length v))%R.

(** [np.dot(u, v)] *)
Definition dot (u v : vector) : R := Rsum (zip_with Rmult u v).

(** [X[:, j]] *)
Definition column (j : nat) (X : matrix) : vector := map (λ row, nth j row 0%R) X.

Definition columns (X : matrix) : list vector :=
  map (λ j, column j X) (seq 0 (ncols X)).

(** [np.mean(X, axis=0)] *)
Definition column_means (X : matrix) : vector := map mean (columns X).

(** [X - m] with the vector [m] broadcast over the rows. *)
Definition sub_rows (X : matrix) (m : vector) : matrix :=
  map (λ row, zip_with Rminus row m) X.

(** [X @ C.T] *)
Definition matmul_T (X C : matrix) : matrix :=
  map (λ row, map (λ c, dot row c) C) X.

(** [np.mean] of an array that may hold NaN. *)
Fixpoint finite_values (l : list xreal) : option (list R) :=
  match l with
  | [] => Some []
  | Finite r :: l' => option_map (cons r) (finite_values l')
  | NaN :: _ => None
  end.

Definition xmean (l : list xreal) : xreal :=
  match finite_values l with
  | Some (r :: rs) => Finite (mean (r :: rs))
  | _ => NaN
  end.

End Numpy.

(** ** The world: file system, standard output, network *)

Module IO.
Import Numpy.

(** What a file holds: a pickled dictionary of arrays, or other bytes. *)
Inductive file : Type :=
  | PickleFile (obj : gmap string matrix)
  | DataFile (content : string).

(** What a network request to a URL yields. *)
Inductive response : Type :=
  | Fetched (content : string)
  | Refused
  | Failed.

Inductive event : Type :=
  | Stdout (text : string)
  | StdoutScores (r2 : xreal) (mse mae mape ev_avg : R) (corr_avg : xreal)
  | Download (url : string) (r : response)
  | NewFigure
  | ImShow (pixels : list (list (list Z)))
  | Title (text : string)
  | Show.

Record World : Type := mkWorld {
  dirs : gset string;
  files : gmap string file;
  trace : list event;
}.

Definition M (A : Type) : Type := World → result A * World.

Definition ret {A} (a : A) : M A := λ w, (Return a, w).
Definition raise {A} (e : exn) : M A := λ w, (Raise e, w).
Definition bind {A B} (m : M A) (k : A → M B) : M B :=
  λ w, match m w with
       | (Return a, w') => k a w'
       | (Raise e, w') => (Raise e, w')
       end.
Definition lift {A} (r : result A) : M A := λ w, (r, w).

Global Instance M_ret : MRet M := @ret.
Global Instance M_bind : MBind M := λ A B k m, bind m k.

Definition log (e : event) (w : World) : World :=
  mkWorld (dirs w) (files w) (trace w ++ [e]).

Definition emit (e : event) : M unit := λ w, (Return tt, log e w).

Definition nl : string := String (ascii_of_nat 10) EmptyString.

(** [print(text)] *)
Definition print (text : string) : M unit := emit (Stdout (text ++ nl)).

(** [print(text, end='', flush=True)] *)
Definition print_no_newline (text : string) : M unit := emit (Stdout text).

Fixpoint has_slash (s : string) : bool :=
  match s with
  | EmptyString => false
  | String c s' => (nat_of_ascii c =? 47) || has_slash s'
  end.

(** The directory part of a relative path: everything before the last
    ['/'], empty when the path has none. *)
Fixpoint dirname (path : string) : string :=
  match path with
  | EmptyString => EmptyString
  | String c s' => if has_slash s' then String c (dirname s') else EmptyString
  end.

Fixpoint ends_with_slash (s : string) : bool :=
  match s with
  | EmptyString => false
  | String c EmptyString => nat_of_ascii c =? 47
  | String _ s' => ends_with_slash s'
  end.

(** [os.path.join(a, b)] for a relative second component [b]. *)
Definition os_path_join (a b : string) : string :=
  match a with
  | EmptyString => b
  | _ => if ends_with_slash a then a ++ b else a ++ "/" ++ b
  end.

(** [os.path.exists(path)] *)
Definition path_exists (path : string) (w : World) : bool :=
  bool_decide (is_Some (files w !! path)) || bool_decide (path ∈ dirs w).

Definition os_path_exists (path : string) : M bool :=
  λ w, (Return (path_exists path w), w).

(** A file can be created at [path] when its directory exists. *)
Definition parent_exists (path : string) (w : World) : bool :=
  match dirname path with
  | EmptyString => true
  | d => bool_decide (d ∈ dirs w)
  end.

(** [with open(path, 'rb') as f: pickle.load(f)] *)
Definition pickle_load_from (path : string) : M (gmap string matrix) :=
  λ w, match files w !! path with
       | Some (PickleFile obj) => (Return obj, w)
       | Some (DataFile _) => (Raise UnpicklingError, w)
       | None =>
           if bool_decide (path ∈ dirs w) then (Raise IsADirectoryError, w)
           else (Raise FileNotFoundError, w)
       end.

Definition write_file (path : string) (f : file) (w : World) : World :=
  mkWorld (dirs w) (<[path := f]> (files w)) (trace w).

(** [with open(path, 'wb') as f: pickle.dump(obj, f)] *)
Definition pickle_dump_to (path : string) (obj : gmap string matrix) : M unit :=
  λ w, if bool_decide (path ∈ dirs w) then (Raise IsADirectoryError, w)
       else if parent_exists path w then (Return tt, write_file path (PickleFile obj) w)
       else (Raise FileNotFoundError, w).

(** [d[k]] *)
Definition getitem {V} (d : gmap string V) (k : string) : M V :=
  lift (Labels.dict_getitem d k).

End IO.

(** ** The library routines the helpers call

    [sklearn], [scipy] and [gdown] are external libraries.  They are modelled
    after their documented behaviour, with real numbers for floats. *)

Module Sklearn.
Import Numpy.

(** Input validation: at least one sample and one feature. *)
Definition check_array (X : matrix) : result unit :=
  if (nrows X =? 0) || (ncols X =? 0) then Raise ValueError else Return tt.

(** A fitted [sklearn.decomposition.PCA]. *)
Record PCA : Type := mkPCA {
  n_components_ : nat;
  n_features_in_ : nat;
  mean_ : vector;
  components_ : matrix;
}.

Section Decomposition.

(** The thin singular value decomposition [U, sigma, Vt] of a matrix, supplied by
    the numerical library. *)
Variable svd : matrix → matrix * vector * matrix.

(** [PCA(n_components).fit_transform(X)] with an integer [n_components]:
    validate, centre, decompose, keep the first [n_components] components and
    return [U[:, :n_components] * sigma[:n_components]]. *)
Definition fit_transform (n_components : nat) (X : matrix) : result (PCA * matrix) :=
  result_bind (check_array X) (λ _,
  if Nat.min (nrows X) (ncols X) <? n_components then Raise ValueError
  else
    let mean_ := column_means X in
    let '(U, sigma, Vt) := svd (sub_rows X mean_) in
    let components_ := take n_components Vt in
    let U := map (take n_components) U in
    let U := map (λ row, zip_with Rmult row (take n_components sigma)) U in
    Return (mkPCA n_components (ncols X) mean_ components_, U)).

End Decomposition.

(** [pca.transform(X)]: [(X - mean_) @ components_.T]. *)
Definition transform (pca : PCA) (X : matrix) : result matrix :=
  result_bind (check_array X) (λ _,
  if negb (ncols X =? n_features_in_ pca) then Raise ValueError
  else Return (matmul_T (sub_rows X (mean_ pca)) (components_ pca))).

(** *** [sklearn.metrics] *)

Definition check_reg_targets (y_true y_pred : matrix) : result unit :=
  result_bind (check_array y_true) (λ _,
  result_bind (check_array y_pred) (λ _,
  if (nrows y_true =? nrows y_pred) && (ncols y_true =? ncols y_pred)
  then Return tt else Raise ValueError)).

Definition sq (x : R) : R := (x * x)%R.

(** [1 - numerator / denominator] with [force_finite=True]: a perfect
    prediction scores 1 and an imperfect prediction of constant data scores 0. *)
Definition force_finite_score (numerator denominator : R) : R :=
  if decide (numerator = 0%R) then 1%R
  else if decide (denominator = 0%R) then 0%R
  else (1 - numerator / denominator)%R.

Definition r2_column (yt yp : vector) : R :=
  force_finite_score (Rsum (zip_with (λ a b, sq (a - b)) yt yp))
                     (Rsum (map (λ a, sq (a - mean yt)) yt)).

(** [r2_score(y_true, y_pred)] *)
Definition r2_score (y_true y_pred : matrix) : result xreal :=
  result_bind (check_reg_targets y_true y_pred) (λ _,
  if nrows y_pred <? 2 then Return NaN
  else Return (Finite (mean (zip_with r2_column (columns y_true) (columns y_pred))))).

Definition mse_column (yt yp : vector) : R :=
  mean (zip_with (λ a b, sq (a - b)) yt yp).

(** [mean_squared_error(y_true, y_pred)] *)
Definition mean_squared_error (y_true y_pred : matrix) : result R :=
  result_bind (check_reg_targets y_true y_pred) (λ _,
  Return (mean (zip_with mse_column (columns y_true) (columns y_pred)))).

Definition mae_column (yt yp : vector) : R :=
  mean (zip_with (λ a b, Rabs (b - a)) yt yp).

(** [mean_absolute_error(y_true, y_pred)] *)
Definition mean_absolute_error (y_true y_pred : matrix) : result R :=
  result_bind (check_reg_targets y_true y_pred) (λ _,
  Return (mean (zip_with mae_column (columns y_true) (columns y_pred)))).

(** [np.finfo(np.float64).eps] *)
Definition eps : R := (/ 2 ^ 52)%R.

Definition mape_column (yt yp : vector) : R :=
  mean (zip_with (λ a b, Rabs (b - a) / Rmax (Rabs a) eps)%R yt yp).

(** [mean_absolute_percentage_error(y_true, y_pred)] *)
Definition mean_absolute_percentage_error (y_true y_pred : matrix) : result R :=
  result_bind (check_reg_targets y_true y_pred) (λ _,
  Return (mean (zip_with mape_column (columns y_true) (columns y_pred)))).

Definition ev_column (yt yp : vector) : R :=
  let diff := zip_with Rminus yt yp in
  force_finite_score (mean (map (λ d, sq (d - mean diff)) diff))
                     (mean (map (λ a, sq (a - mean yt)) yt)).

(** [explained_variance_score(y_true, y_pred, multioutput='raw_values')] *)
Definition explained_variance_raw (y_true y_pred : matrix) : result (list R) :=
  result_bind (check_reg_targets y_true y_pred) (λ _,
  Return (zip_with ev_column (columns y_true) (columns y_pred))).

(** [explained_variance_score(y_true, y_pred, multioutput='uniform_average')] *)
Definition explained_variance_avg (y_true y_pred : matrix) : result R :=
  result_bind (explained_variance_raw y_true y_pred) (λ scores, Return (mean scores)).

End Sklearn.

Module Scipy.
Import Numpy.

Definition is_constant (x : vector) : bool :=
  match x with
  | [] => true
  | x0 :: _ => bool_decide (Forall (λ v, v = x0) x)
  end.

Definition norm (v : vector) : R := sqrt (Rsum (map (λ a, a * a)%R v)).

(** [scipy.stats.pearsonr(x, y)[0]]: fewer than two points is an error; a
    constant input gives NaN; otherwise the normalised dot product of the
    centred vectors, clipped to [[-1, 1]]. *)
Definition pearsonr (x y : vector) : result xreal :=
  if negb (length x =? length y) then Raise ValueError
  else if length x <? 2 then Raise ValueError
  else if is_constant x || is_constant y then Return NaN
  else
    let xm := map (λ a, a - mean x)%R x in
    let ym := map (λ a, a - mean y)%R y in
    let r := dot (map (λ a, a / norm xm)%R xm) (map (λ a, a / norm ym)%R ym) in
    Return (Finite (Rmax (Rmin r 1) (-1))).

End Scipy.

Module Gdown.
Import IO.

Section Network.

(** The answer of the remote host to a request, given what happened before. *)
Variable remote : list event → string → response.

(** [gdown.download(url, output, quiet=False, fuzzy=True)], called on an
    [output] at which nothing exists: a fetched file is stored at [output]; a
    refusal is reported and [None] returned; a transport failure raises. *)
Definition download (url output : string) : M (option string) :=
  λ w, let r := remote (trace w) url in
       let w1 := log (Download url r) w in
       match r with
       | Fetched content =>
           if parent_exists output w
           then (Return (Some output), write_file output (DataFile content) w1)
           else (Raise FileNotFoundError, w1)
       | Refused => (Return None, w1)
       | Failed => (Raise NetworkError, w1)
       end.

End Network.

End Gdown.

(** ** The helpers of [utils.py] *)

Module Utils.
Import Numpy IO.

Definition normalize_mean : vector := [0.485; 0.456; 0.406]%R.
Definition normalize_std : vector := [0.229; 0.224; 0.225]%R.

(** [np.transpose(img, [1, 2, 0])] of a channel-first image. *)
Definition transpose_120 (img : list matrix) : list (list vector) :=
  let H := match img with [] => 0 | ch :: _ => length ch end in
  let W := match img with (row :: _) :: _ => length row | _ => 0 end in
  map (λ h, map (λ w, map (λ ch, nth w (nth h ch []) 0%R) img) (seq 0 W)) (seq 0 H).

(** A pixel combined with a three-element list broadcast along the last
    axis; a single-channel pixel is stretched. *)
Definition broadcast_pixel (f : R → R → R) (px v : vector) : vector :=
  if length px =? 1 then map (f (nth 0 px 0%R)) v else zip_with f px v.

(** [(img_tmp * normalize_std + normalize_mean) * 255] *)
Definition denormalize (img_tmp : list (list vector)) : list (list vector) :=
  map (map (λ px,
    map (λ x, x * 255)%R
      (zip_with Rplus (broadcast_pixel Rmult px normalize_std) normalize_mean)))
    img_tmp.

(** [x.astype(np.uint8)]: truncate towards zero, keep the low eight bits. *)
Definition astype_uint8 (x : R) : Z :=
  ((if Rle_dec 0 x then Int_part x else - Int_part (- x)) mod 256)%Z.

Definition getitem_list {A} (l : list A) (i : nat) : M A :=
  match l !! i with
  | Some x => mret x
  | None => raise IndexError
  end.

Definition visualize_img (stimulus : list (list matrix)) (objects : list string)
    (stim_idx : nat) : M unit :=
  img ← getitem_list stimulus stim_idx;
  (if (length img =? 3) || (length img =? 1) then mret tt else raise ValueError);;
  let img_tmp := transpose_120 img in
  let img_tmp := denormalize img_tmp in
  emit NewFigure;;
  emit (ImShow (map (map (map astype_uint8)) img_tmp));;
  title ← getitem_list objects stim_idx;
  emit (Title title);;
  emit Show.

Record metrics : Type := mkMetrics {
  r2 : xreal;
  mse : R;
  mae : R;
  mape : R;
  ev : list R;
  ev_avg : R;
  corr : list xreal;
  corr_avg : xreal;
}.

Definition compute_metrics (y_true y_pred : matrix) : M metrics :=
  r2 ← lift (Sklearn.r2_score y_true y_pred);
  mse ← lift (Sklearn.mean_squared_error y_true y_pred);
  mae ← lift (Sklearn.mean_absolute_error y_true y_pred);
  mape ← lift (Sklearn.mean_absolute_percentage_error y_true y_pred);
  ev ← lift (Sklearn.explained_variance_raw y_true y_pred);
  ev_avg ← lift (Sklearn.explained_variance_avg y_true y_pred);
  corr ← lift (list_comprehension
                 (λ i, Scipy.pearsonr (column i y_true) (column i y_pred))
                 (seq 0 (ncols y_true)));
  let corr_avg := xmean corr in
  emit (StdoutScores r2 mse mae mape ev_avg corr_avg);;
  mret (mkMetrics r2 mse mae mape ev ev_avg corr corr_avg).

(** The fixed location of the PCA cache. *)
Definition pkl_file : string := "out/linear_models/pca_model.pkl".

Section Environment.

Variable svd : matrix → matrix * vector * matrix.
Variable remote : list event → string → response.

Definition download_it_data (path_to_data : string) : M unit :=
  let output := os_path_join path_to_data "IT_data.h5" in
  present ← os_path_exists output;
  if negb present then
    let url := "https://drive.google.com/file/d/1s6caFNRpyR9m7ZM6XEv_e8mcXT3_PnHS/view?usp=share_link" in
    Gdown.download remote url output;;
    mret tt
  else
    print "File already exists. Skipping download.".

Definition compute_pca (X_train X_val : matrix) (n_components : nat)
  : M (matrix * matrix) :=
  print_no_newline "Computing PCA... ";;
  fitted ← lift (Sklearn.fit_transform svd n_components X_train);
  let '(pca, X_train) := fitted in
  X_val ← lift (Sklearn.transform pca X_val);
  print "done.";;
  mret (X_train, X_val).

Definition get_pca (X_train X_val : matrix) (n_components : nat)
  : M (matrix * matrix) :=
  present ← os_path_exists pkl_file;
  if (present : bool) then
    print "PCA Pickle file found, variables loaded.";;
    pca_data ← pickle_load_from pkl_file;
    X_train_pca ← getitem pca_data "X_train_pca";
    X_val_pca ← getitem pca_data "X_val_pca";
    mret (X_train_pca, X_val_pca)
  else
    print "PCA Pickle file does not exist.";;
    transformed ← compute_pca X_train X_val n_components;
    let '(X_train_pca, X_val_pca) := transformed in
    pickle_dump_to pkl_file
      {["X_train_pca" := X_train_pca; "X_val_pca" := X_val_pca]};;
    print "PCA model and transformed data saved as pickle!";;
    mret (X_train_pca, X_val_pca).

End Environment.

End Utils.

(** ** Loading and describing the data set *)

Module Loading.
Import Numpy IO.

(** What [datafile[name][()]] yields: an array of images, an array of
    firing rates, or an array of byte strings. *)
Inductive dataset : Type :=
  | Images (a : list (list matrix))
  | Rates (a : matrix)
  | ByteStrings (a : list (list Byte.byte)).

(** [b.decode("latin-1")]: every byte is the code point of the same value. *)
Definition decode_latin1 (b : list Byte.byte) : string := string_of_list_byte b.

(** [[obj_tmp.decode("latin-1") for obj_tmp in objects]]: the elements of a
    numeric array are arrays or numbers, which have no [decode]. *)
Definition decode_objects (objects : dataset) : result (list string) :=
  match objects with
  | ByteStrings l => list_comprehension (λ obj_tmp, Return (decode_latin1 obj_tmp)) l
  | Images l => list_comprehension (λ _, Raise AttributeError) l
  | Rates l => list_comprehension (λ _, Raise AttributeError) l
  end.

(** The eight values returned by [load_it_data], in the order of the
    returned tuple. *)
Record it_data : Type := mkItData {
  stimulus_train : dataset;
  stimulus_val : dataset;
  stimulus_test : dataset;
  objects_train : list string;
  objects_val : list string;
  objects_test : list string;
  spikes_train : dataset;
  spikes_val : dataset;
}.

Section Container.

(** How the HDF5 library reads the content of a file: the named datasets, or
    an error. *)
Variable h5py_File : file → result (gmap string dataset).

(** [h5py.File(path, 'r')] *)
Definition open_h5 (path : string) : M (gmap string dataset) :=
  λ w, match files w !! path with
       | Some f => (h5py_File f, w)
       | None =>
           if bool_decide (path ∈ dirs w) then (Raise IsADirectoryError, w)
           else (Raise FileNotFoundError, w)
       end.

Definition load_it_data (path_to_data : string) : M it_data :=
  datafile ← open_h5 (os_path_join path_to_data "IT_data.h5");
  stimulus_train ← getitem datafile "stimulus_train";
  spikes_train ← getitem datafile "spikes_train";
  objects_train ← getitem datafile "object_train";
  stimulus_val ← getitem datafile "stimulus_val";
  spikes_val ← getitem datafile "spikes_val";
  objects_val ← getitem datafile "object_val";
  stimulus_test ← getitem datafile "stimulus_test";
  objects_test ← getitem datafile "object_test";
  objects_train ← lift (decode_objects objects_train);
  objects_val ← lift (decode_objects objects_val);
  objects_test ← lift (decode_objects objects_test);
  mret (mkItData stimulus_train stimulus_val stimulus_test
          objects_train objects_val objects_test spikes_train spikes_val).

End Container.

(** An array seen through its [shape] and its flat buffer. *)
Record ndarray : Type := mkArray {
  shape : list nat;
  buffer : list R;
}.

(** [print_data_info]: both shapes are unpacked before anything is printed;
    a shape of another rank makes the unpacking raise [ValueError]. *)
Definition print_data_info (stimulus_train spikes_train : ndarray) : M unit :=
  match shape stimulus_train with
  | [n_stimulus; n_channels; img_size; _] =>
      match shape spikes_train with
      | [n_bins; n_neurons] =>
          print ("The train dataset contains " ++ pretty n_stimulus
                 ++ " stimuli and " ++ pretty n_neurons ++ " IT neurons");;
          print ("Each stimulus have " ++ pretty n_channels ++ " channels (RGB)");;
          print ("The size of the image is " ++ pretty img_size ++ "x" ++ pretty img_size);;
          print ("The number of bins of neuron spiking rate is " ++ pretty n_bins)
      | _ => raise ValueError
      end
  | _ => raise ValueError
  end.

End Loading.

(** ** The correlation in double precision

    The arrays hold binary64 numbers.  The metrics above are written over
    the real numbers; this module evaluates the formula of [pearsonr] with
    the machine's arithmetic, to show where the two differ. *)

Module Binary64.
Import PrimFloat.
Local Open Scope float_scope.

Fixpoint of_nat (n : nat) : float :=
  match n with
  | O => 0
  | S n' => of_nat n' + 1
  end.

(** [np.sum] of a short vector: the terms are added from left to right. *)
Definition sum (v : list float) : float := foldl PrimFloat.add 0 v.

Definition mean (v : list float) : float := sum v / of_nat (length v).

Definition dot (u v : list float) : float := sum (zip_with PrimFloat.mul u v).

Definition norm (v : list float) : float := PrimFloat.sqrt (sum (map (λ a, a * a) v)).

Definition is_constant (x : list float) : bool :=
  match x with
  | [] => true
  | x0 :: _ => forallb (λ v, v =? x0) x
  end.

(** [max(min(r, 1.0), -1.0)] *)
Definition clip (r : float) : float :=
  let t := if 1 <? r then 1 else r in
  if t <? -1 then -1 else t.

(** [scipy.stats.pearsonr(x, y)[0]] on binary64 vectors, step by step as
    [Scipy.pearsonr]. *)
Definition pearsonr (x y : list float) : result float :=
  if negb (length x =? length y)%nat then Raise ValueError
  else if (length x <? 2)%nat then Raise ValueError
  else if is_constant x || is_constant y then Return nan
  else
    let xm := map (λ a, a - mean x) x in
    let ym := map (λ a, a - mean y) y in
    let r := dot (map (λ a, a / norm xm) xm) (map (λ a, a / norm ym) ym) in
    Return (clip r).



End Binary64.

(** ** Notions used in the statements *)

Module Notions.
Import Labels Numpy IO Utils.

(** The strict order on strings. *)
Definition str_lt (a b : string) : Prop := String.ltb a b = true.

(** The string begins with an ASCII letter. *)
Definition starts_with_letter (s : string) : bool :=
  match s with
  | EmptyString => false
  | String c _ => is_ascii_letter c
  end.

Fixpoint all_digits (s : string) : bool :=
  match s with
  | EmptyString => true
  | String c s' => is_ascii_digit c && all_digits s'
  end.

(** One or more ASCII letters followed only by ASCII digits, as in the
    docstring's examples ['car1'], ['banana4'], ['dog2']. *)
Fixpoint letters_then_digits (s : string) : bool :=
  match s with
  | EmptyString => false
  | String c s' => is_ascii_letter c && (letters_then_digits s' || all_digits s')
  end.

(** Requests answered with a file, all requests, and how many events of a
    trace satisfy a test. *)
Definition is_fetch (e : event) : bool :=
  match e with
  | Download _ (Fetched _) => true
  | _ => false
  end.

Definition is_network (e : event) : bool :=
  match e with
  | Download _ _ => true
  | _ => false
  end.

Definition count (p : event → bool) (t : list event) : nat :=
  length (filter (λ e, p e = true) t).

(** A host that always serves the file, and two small worlds. *)
Definition serving_host : list event → string → response := λ _ _, Fetched "h5".
Definition world_with_data : World :=
  mkWorld {["data"]} {["data/IT_data.h5" := DataFile "h5"]} [].
Definition world_without_data : World := mkWorld {["data"]} ∅ [].

(** A world with no file and no directory, and one with the cache directory. *)
Definition empty_world : World := mkWorld ∅ ∅ [].
Definition world_with_cache_dir : World := mkWorld {["out/linear_models"]} ∅ [].

(** What any thin singular value decomposition guarantees about shapes: for
    an [N × D] input, [U] is [N × min(N, D)], there are [min(N, D)] singular
    values and [Vt] is [min(N, D) × D]. *)
Definition svd_shapes (svd : matrix → matrix * vector * matrix) : Prop :=
  ∀ X N D, has_shape X N D → 0 < N → 0 < D →
    has_shape (svd X).1.1 N (N `min` D) ∧
    length (svd X).1.2 = N `min` D ∧
    has_shape (svd X).2 (N `min` D) D.

(** The factors of a zero matrix: the leading columns of the identity for [U]
    and [Vt] and zero singular values.  They have the shapes of a thin
    decomposition for every input. *)
Definition unit_row (n i : nat) : vector :=
  map (λ j, if i =? j then 1%R else 0%R) (seq 0 n).

Definition zero_matrix_svd (X : matrix) : matrix * vector * matrix :=
  let K := nrows X `min` ncols X in
  (map (unit_row K) (seq 0 (nrows X)),
   replicate K 0%R,
   map (unit_row (ncols X)) (seq 0 K)).

(** [compute_pca] prints two lines around the library calls and touches
    nothing else. *)
Definition after_compute_pca (w : World) : World :=
  log (Stdout ("done." ++ nl)) (log (Stdout "Computing PCA... ") w).

(** The world after the miss message and [compute_pca]. *)
Definition after_miss (w : World) : World :=
  after_compute_pca (log (Stdout ("PCA Pickle file does not exist." ++ nl)) w).

(** The Pearson correlation of a vector with itself. *)
Definition self_correlation (x : vector) : xreal :=
  if Scipy.is_constant x then NaN else Finite 1.

(** Every entry of a channel-first image is zero. *)
Definition all_zero (img : list matrix) : Prop :=
  Forall (Forall (Forall (λ x, x = 0%R))) img.

End Notions.

(** ** Further notions used in the statements *)

Module MoreNotions.
Import Labels Numpy IO Utils Notions.

(** Every character is an ASCII letter. *)
Fixpoint all_letters (s : string) : bool :=
  match s with
  | EmptyString => true
  | String c s' => is_ascii_letter c && all_letters s'
  end.

(** What [visualize_img] hands to [imshow]. *)
Definition shown_pixels (img : list matrix) : list (list (list Z)) :=
  map (map (map astype_uint8)) (denormalize (transpose_120 img)).

(** The bundle [compute_metrics] returns once the inputs are validated and
    the per-output correlations [corr] are known. *)
Definition metrics_values (y_true y_pred : matrix) (corr : list xreal) : metrics :=
  let cols_true := columns y_true in
  let cols_pred := columns y_pred in
  mkMetrics
    (if nrows y_pred <? 2 then NaN
     else Finite (mean (zip_with Sklearn.r2_column cols_true cols_pred)))
    (mean (zip_with Sklearn.mse_column cols_true cols_pred))
    (mean (zip_with Sklearn.mae_column cols_true cols_pred))
    (mean (zip_with Sklearn.mape_column cols_true cols_pred))
    (zip_with Sklearn.ev_column cols_true cols_pred)
    (mean (zip_with Sklearn.ev_column cols_true cols_pred))
    corr
    (xmean corr).

(** The line [compute_metrics] prints for a bundle. *)
Definition scores_line (m : metrics) : event :=
  StdoutScores (r2 m) (mse m) (mae m) (mape m) (ev_avg m) (corr_avg m).

(** The per-output correlations as [compute_metrics] computes them. *)
Definition correlations (y_true y_pred : matrix) : result (list xreal) :=
  list_comprehension (λ i, Scipy.pearsonr (column i y_true) (column i y_pred))
    (seq 0 (ncols y_true)).

(** The address [download_it_data] fetches from. *)
Definition it_data_url : string :=
  "https://drive.google.com/file/d/1s6caFNRpyR9m7ZM6XEv_e8mcXT3_PnHS/view?usp=share_link".

(** The names of the eight datasets [load_it_data] reads. *)
Definition it_data_keys : list string :=
  ["stimulus_train"; "spikes_train"; "object_train";
   "stimulus_val"; "spikes_val"; "object_val";
   "stimulus_test"; "object_test"].

(** A small container with one training image label, and a reader that
    finds it in every file. *)
Definition sample_container : gmap string Loading.dataset :=
  {["stimulus_train" := Loading.Images []; "spikes_train" := Loading.Rates [];
    "object_train" := Loading.ByteStrings [[Byte.x63; Byte.x61; Byte.x72; Byte.x31]];
    "stimulus_val" := Loading.Images []; "spikes_val" := Loading.Rates [];
    "object_val" := Loading.ByteStrings [];
    "stimulus_test" := Loading.Images [];
    "object_test" := Loading.ByteStrings []]}.

Definition sample_reader : file → result (gmap string Loading.dataset) :=
  λ _, Return sample_container.

(** A container without any spike data. *)
Definition container_without_spikes : gmap string Loading.dataset :=
  {["stimulus_train" := Loading.Images []]}.

(** The message [get_pca] prints on a cache hit. *)
Definition cache_hit_message : string :=
  "PCA Pickle file found, variables loaded." ++ nl.

End MoreNotions.

(** ** Facts about the label encoding *)

Module LabelFacts.
Import Labels Notions.

(** *** Results *)

Lemma list_comprehension_Return {A B} (f : A → result B) l ys :
  list_comprehension f l = Return ys ↔ Forall2 (λ x y, f x = Return y) l ys.
Proof.
  revert ys. induction l as [|x l IH]; intros ys; simpl.
  - split.
    + intros [= <-]. constructor.
    + intros H. inversion H. reflexivity.
  - destruct (f x) as [y|e] eqn:Hx; simpl.
    + destruct (list_comprehension f l) as [ys'|e] eqn:Hl; simpl.
      * split.
        -- intros [= <-]. constructor; [done|]. by apply IH.
        -- intros H. inversion H as [|? y' ? ys'' Hy Hrest]; subst.
           apply IH in Hrest. congruence.
      * split; [done|].
        intros H. inversion H as [|? y' ? ys'' Hy Hrest]; subst.
        apply IH in Hrest. done.
    + split; [done|].
      intros H. inversion H; subst. congruence.
Qed.

Lemma list_comprehension_total {A B} (f : A → result B) l :
  Forall (λ x, ∃ y, f x = Return y) l → ∃ ys, list_comprehension f l = Return ys.
Proof.
  induction 1 as [|x l [y Hy] _ [ys Hys]]; simpl.
  - by eexists.
  - rewrite Hy, Hys. by eexists.
Qed.

Lemma list_comprehension_Raise {A B} (f : A → result B) e l :
  Forall (λ x, f x = Raise e ∨ ∃ y, f x = Return y) l →
  Exists (λ x, f x = Raise e) l →
  list_comprehension f l = Raise e.
Proof.
  induction 1 as [|x l Hx Hl IH]; intros Hex.
  - inversion Hex.
  - simpl. destruct Hx as [Hx|[y Hx]]; rewrite Hx; simpl; [done|].
    inversion Hex as [? ? Hhd|? ? Htl]; subst; [congruence|].
    by rewrite IH.
Qed.

(** *** The order on strings *)

Lemma ascii_compare_refl a : Ascii.compare a a = Eq.
Proof. unfold Ascii.compare. apply N.compare_refl. Qed.

Lemma ascii_compare_Lt_trans a b c :
  Ascii.compare a b = Lt → Ascii.compare b c = Lt → Ascii.compare a c = Lt.
Proof.
  unfold Ascii.compare. rewrite !N.compare_lt_iff. apply N.lt_trans.
Qed.

Lemma ascii_compare_Gt a b : Ascii.compare a b = Gt ↔ Ascii.compare b a = Lt.
Proof. rewrite (Ascii.compare_antisym b a). destruct (Ascii.compare a b); simpl; intuition congruence. Qed.

Lemma str_compare_refl s : String.compare s s = Eq.
Proof. induction s as [|a s IH]; simpl; [done|]. by rewrite ascii_compare_refl. Qed.

Lemma str_compare_Eq s t : String.compare s t = Eq ↔ s = t.
Proof.
  split; [apply String.compare_eq_iff|]. intros ->. apply str_compare_refl.
Qed.

Lemma str_compare_Gt s t : String.compare s t = Gt ↔ String.compare t s = Lt.
Proof. rewrite (String.compare_antisym t s). destruct (String.compare s t); simpl; intuition congruence. Qed.

Lemma str_compare_Lt_trans s t u :
  String.compare s t = Lt → String.compare t u = Lt → String.compare s u = Lt.
Proof.
  revert t u. induction s as [|a s IH]; intros [|b t] [|c u]; simpl; try done.
  destruct (Ascii.compare a b) eqn:Hab; [|clear IH|done].
  - apply Ascii.compare_eq_iff in Hab as ->.
    destruct (Ascii.compare b c); [apply IH|done|done].
  - destruct (Ascii.compare b c) eqn:Hbc; [| |done].
    + apply Ascii.compare_eq_iff in Hbc as <-. by rewrite Hab.
    + by rewrite (ascii_compare_Lt_trans _ _ _ Hab Hbc).
Qed.

Lemma str_lt_compare a b : str_lt a b ↔ String.compare a b = Lt.
Proof. unfold str_lt, String.ltb. destruct (String.compare a b); intuition congruence. Qed.

Lemma str_le_compare a b : str_le a b ↔ String.compare a b ≠ Gt.
Proof. unfold str_le, String.leb. destruct (String.compare a b); intuition congruence. Qed.

Lemma str_le_lt_eq a b : str_le a b ↔ str_lt a b ∨ a = b.
Proof.
  rewrite str_le_compare, str_lt_compare, <-str_compare_Eq.
  destruct (String.compare a b); intuition congruence.
Qed.

Lemma str_lt_irrefl a : ¬ str_lt a a.
Proof. rewrite str_lt_compare, str_compare_refl. done. Qed.

Lemma str_lt_trans a b c : str_lt a b → str_lt b c → str_lt a c.
Proof. rewrite !str_lt_compare. apply str_compare_Lt_trans. Qed.

Global Instance str_le_total : Total str_le.
Proof. intros a b. unfold str_le. apply String.leb_total. Qed.

Global Instance str_le_trans : Transitive str_le.
Proof.
  intros a b c. rewrite !str_le_lt_eq.
  intros [Hab| ->] [Hbc| ->]; eauto using str_lt_trans.
Qed.

Global Instance str_le_antisymm : AntiSymm (=) str_le.
Proof. intros a b. unfold str_le. apply String.leb_antisym. Qed.

(** *** [sorted(set(...))] *)

Lemma sorted_set_Permutation xs :
  sorted_set xs ≡ₚ elements (list_to_set xs : gset string).
Proof. apply merge_sort_Permutation. Qed.

Lemma sorted_set_NoDup xs : NoDup (sorted_set xs).
Proof. rewrite sorted_set_Permutation. apply NoDup_elements. Qed.

Lemma elem_of_sorted_set xs x : x ∈ sorted_set xs ↔ x ∈ xs.
Proof. rewrite sorted_set_Permutation, elem_of_elements. apply elem_of_list_to_set. Qed.

Lemma sorted_set_length xs : length (sorted_set xs) = size (list_to_set xs : gset string).
Proof. by rewrite sorted_set_Permutation. Qed.

Lemma sorted_set_StronglySorted xs : StronglySorted str_le (sorted_set xs).
Proof. apply StronglySorted_merge_sort; apply _. Qed.

(** In a duplicate-free sorted list, positions and elements are ordered alike. *)
Lemma StronglySorted_lookup_lt (l : list string) i j a b :
  StronglySorted str_le l → NoDup l →
  l !! i = Some a → l !! j = Some b → i < j → str_lt a b.
Proof.
  intros Hs. revert i j. induction Hs as [|x l Hs IH Hall]; intros i j Hnd Hi Hj Hij.
  - done.
  - apply NoDup_cons in Hnd as [Hx Hnd].
    destruct j as [|j]; [lia|]. simpl in Hj.
    destruct i as [|i]; simpl in Hi.
    + injection Hi as <-.
      assert (b ∈ l) as Hb by (eapply list_elem_of_lookup_2; eauto).
      rewrite Forall_forall in Hall. apply Hall in Hb.
      apply str_le_lt_eq in Hb as [Hlt| ->]; [done|].
      destruct Hx. eapply list_elem_of_lookup_2; eauto.
    + eapply IH; eauto. lia.
Qed.

Lemma StronglySorted_lookup_lt_iff (l : list string) i j a b :
  StronglySorted str_le l → NoDup l →
  l !! i = Some a → l !! j = Some b → (i < j ↔ str_lt a b).
Proof.
  intros Hs Hnd Hi Hj. split; [by eapply StronglySorted_lookup_lt|].
  intros Hab. destruct (decide (i < j)) as [|Hge]; [done|]. exfalso.
  destruct (decide (i = j)) as [->|Hne].
  - rewrite Hi in Hj. injection Hj as ->. by eapply str_lt_irrefl.
  - assert (j < i) as Hji by lia.
    pose proof (StronglySorted_lookup_lt l j i b a Hs Hnd Hj Hi Hji) as Hba.
    eapply str_lt_irrefl, str_lt_trans; eauto.
Qed.

(** *** The dictionary comprehension *)

Lemma foldl_insert_enumerate (l : list string) n (d : gmap string nat) b v :
  NoDup l →
  (foldl (λ (d : gmap string nat) '(idx, base), <[base := idx]> d) d
         (zip (seq n (length l)) l)) !! b = Some v
  ↔ (∃ j, l !! j = Some b ∧ v = n + j) ∨ ((b ∉ l) ∧ d !! b = Some v).
Proof.
  revert n d. induction l as [|x l IH]; intros n d Hnd; simpl.
  - split.
    + intros H. right. split; [|done]. apply not_elem_of_nil.
    + intros [[j [Hj _]]|[_ H]]; [done|done].
  - apply NoDup_cons in Hnd as [Hx Hnd].
    rewrite (IH (S n) (<[x:=n]> d) Hnd). split.
    + intros [[j [Hj ->]]|[Hb Hd]].
      * left. exists (S j). split; [done|lia].
      * destruct (decide (x = b)) as [->|Hne].
        -- rewrite lookup_insert_eq in Hd. injection Hd as <-.
           left. exists 0. split; [done|lia].
        -- rewrite lookup_insert_ne in Hd by done.
           right. split; [|done]. rewrite not_elem_of_cons. done.
    + intros [[[|j] [Hj ->]]|[Hb Hd]].
      * simpl in Hj. injection Hj as ->. right. split; [done|].
        rewrite lookup_insert_eq. f_equal. lia.
      * simpl in Hj. left. exists j. split; [done|lia].
      * apply not_elem_of_cons in Hb as [Hne Hb]. right. split; [done|].
        by rewrite lookup_insert_ne.
Qed.

Lemma dict_of_enumerate_lookup (bases : list string) b v :
  NoDup bases →
  dict_of_enumerate bases !! b = Some v ↔ bases !! v = Some b.
Proof.
  intros Hnd. unfold dict_of_enumerate, enumerate.
  rewrite foldl_insert_enumerate by done. split.
  - intros [[j [Hj ->]]|[_ H]]; [done|]. by rewrite lookup_empty in H.
  - intros H. left. by exists v.
Qed.

(** *** The regular expression *)

Lemma base_name_Return s :
  starts_with_letter s = true → base_name s = Return (leading_letters s).
Proof.
  destruct s as [|c s]; [done|]. simpl. intros Hc.
  unfold base_name, re_match_letters. simpl. by rewrite Hc.
Qed.

Lemma base_name_Raise s :
  starts_with_letter s = false → base_name s = Raise AttributeError.
Proof.
  destruct s as [|c s]; [done|]. simpl. intros Hc.
  unfold base_name, re_match_letters. simpl. by rewrite Hc.
Qed.

Lemma base_name_cases s :
  base_name s = Raise AttributeError ∨ ∃ b, base_name s = Return b.
Proof.
  destruct (starts_with_letter s) eqn:Hs.
  - right. eexists. by apply base_name_Return.
  - left. by apply base_name_Raise.
Qed.

(** Every base name of the input is a key of the dictionary, so the lookup
    [label_dict[base]] cannot raise. *)
Lemma labels_total (base_names : list string) :
  ∃ labels,
    list_comprehension (dict_getitem (dict_of_enumerate (sorted_set base_names)))
      base_names = Return labels.
Proof.
  apply list_comprehension_total, Forall_forall. intros b Hb.
  apply elem_of_sorted_set, list_elem_of_lookup in Hb as [i Hi].
  exists i. unfold dict_getitem.
  apply (dict_of_enumerate_lookup _ _ _ (sorted_set_NoDup base_names)) in Hi.
  by rewrite Hi.
Qed.

Lemma encode_Return_inv objs d labels :
  encode_object_base_labels objs = Return (d, labels) →
  ∃ base_names,
    Forall2 (λ o b, base_name o = Return b) objs base_names ∧
    d = dict_of_enumerate (sorted_set base_names) ∧
    Forall2 (λ b v, d !! b = Some v) base_names labels.
Proof.
  unfold encode_object_base_labels.
  destruct (list_comprehension base_name objs) as [base_names|e] eqn:Hb; simpl; [|done].
  destruct (list_comprehension _ base_names) as [ls|e] eqn:Hl; simpl; [|done].
  intros [= <- <-]. exists base_names. split_and!.
  - by apply list_comprehension_Return.
  - done.
  - apply list_comprehension_Return in Hl.
    eapply Forall2_impl; [exact Hl|]. intros b v. simpl. unfold dict_getitem.
    destruct (_ !! b); [|done]. by intros [= ->].
Qed.

(** *** Names of the form letters-then-digits *)

Lemma letter_not_digit c : is_ascii_letter c = true → is_ascii_digit c = false.
Proof.
  unfold is_ascii_letter, is_ascii_digit. cbv zeta.
  generalize (nat_of_ascii c). intros n H.
  apply andb_false_iff.
  rewrite orb_true_iff, !andb_true_iff, !Nat.leb_le in H.
  rewrite !Nat.leb_gt. lia.
Qed.

Lemma digit_not_letter c : is_ascii_digit c = true → is_ascii_letter c = false.
Proof.
  intros Hd. destruct (is_ascii_letter c) eqn:Hl; [|done].
  apply letter_not_digit in Hl. congruence.
Qed.

Lemma all_digits_strip s :
  all_digits s = true →
  strip_trailing_digits_spec s = EmptyString ∧ leading_letters s = EmptyString.
Proof.
  induction s as [|c s IH]; simpl; [done|].
  intros [Hc Hs]%andb_true_iff. destruct (IH Hs) as [-> _].
  rewrite Hc, (digit_not_letter c Hc). done.
Qed.

Lemma letters_then_digits_strip s :
  letters_then_digits s = true →
  leading_letters s = strip_trailing_digits_spec s ∧ leading_letters s ≠ EmptyString.
Proof.
  induction s as [|c s IH]; simpl; [done|].
  intros [Hc Hs]%andb_true_iff. rewrite Hc.
  apply orb_true_iff in Hs as [Hs|Hs].
  - destruct (IH Hs) as [Heq Hne]. rewrite <-Heq.
    destruct (leading_letters s); done.
  - destruct (all_digits_strip s Hs) as [-> ->].
    by rewrite (letter_not_digit c Hc).
Qed.

End LabelFacts.

(** ** Facts about the world and the cached PCA *)

Module IOFacts.
Import Numpy IO Utils Notions.

Lemma bind_Return {A B} (m : M A) (k : A → M B) w a w' :
  m w = (Return a, w') → (m ≫= k) w = k a w'.
Proof. intros H. unfold mbind, M_bind, bind. by rewrite H. Qed.

Lemma bind_Raise {A B} (m : M A) (k : A → M B) w e w' :
  m w = (Raise e, w') → (m ≫= k) w = (Raise e, w').
Proof. intros H. unfold mbind, M_bind, bind. by rewrite H. Qed.

Lemma path_exists_file path f w :
  files w !! path = Some f → path_exists path w = true.
Proof.
  intros H. unfold path_exists. rewrite bool_decide_eq_true_2; [done|]. by rewrite H.
Qed.

Lemma path_exists_false path w :
  path_exists path w = false → files w !! path = None ∧ path ∉ dirs w.
Proof.
  unfold path_exists. intros [H1 H2]%orb_false_iff.
  apply bool_decide_eq_false in H1, H2. split; [|done].
  by apply eq_None_not_Some.
Qed.

Lemma path_exists_log path e w : path_exists path (log e w) = path_exists path w.
Proof. done. Qed.

Lemma count_app p t1 t2 : count p (t1 ++ t2) = count p t1 + count p t2.
Proof. unfold count. by rewrite filter_app, length_app. Qed.

Section Download.

Variable remote : list event → string → response.

Lemma download_present path w :
  path_exists (os_path_join path "IT_data.h5") w = true →
  download_it_data remote path w
  = (Return tt, log (Stdout ("File already exists. Skipping download." ++ nl)) w).
Proof.
  intros H. unfold download_it_data.
  rewrite (bind_Return _ _ w (path_exists (os_path_join path "IT_data.h5") w) w) by done.
  by rewrite H.
Qed.

(** A call on a world where the file is absent makes exactly one request; if
    it returns and the request was answered with a file, the file is there
    afterwards. *)
Lemma download_absent path w r w' :
  path_exists (os_path_join path "IT_data.h5") w = false →
  download_it_data remote path w = (r, w') →
  ∃ url resp,
    trace w' = (trace w ++ [Download url resp])%list ∧
    (∀ c, resp = Fetched c → r = Return tt →
          path_exists (os_path_join path "IT_data.h5") w' = true).
Proof.
  intros H. unfold download_it_data.
  rewrite (bind_Return _ _ w (path_exists (os_path_join path "IT_data.h5") w) w) by done.
  rewrite H. simpl. unfold mbind, M_bind, bind, Gdown.download.
  destruct (remote (trace w) _) as [c| |] eqn:Hr.
  - destruct (parent_exists _ w) eqn:Hp.
    + intros [= <- <-]. eexists _, _. split; [done|].
      intros c' _ _. eapply path_exists_file. simpl. apply lookup_insert_eq.
    + intros [= <- <-]. eexists _, _. split; [done|]. intros c' _ [=].
  - intros [= <- <-]. eexists _, _. split; [done|]. intros c' [=].
  - intros [= <- <-]. eexists _, _. split; [done|]. intros c' [=].
Qed.

End Download.

End IOFacts.

(** ** Facts about the decomposition *)

Module PCAFacts.
Import Numpy IO Utils Notions IOFacts.

Lemma has_shape_ncols X N D : has_shape X N D → 0 < N → ncols X = D.
Proof.
  intros [HN HD] Hpos. destruct X as [|row X]; simpl in *; [lia|].
  by inversion HD.
Qed.

Lemma has_shape_map {A} (f : A → vector) (X : list A) N D :
  length X = N → Forall (λ row, length (f row) = D) X → has_shape (map f X) N D.
Proof.
  intros HN HD. split; [by rewrite length_map|]. by apply Forall_map.
Qed.

Lemma columns_length X : length (columns X) = ncols X.
Proof. unfold columns. by rewrite length_map, length_seq. Qed.

Lemma column_length j X : length (column j X) = length X.
Proof. unfold column. by rewrite length_map. Qed.

Lemma sub_rows_shape X m N D :
  has_shape X N D → length m = D → has_shape (sub_rows X m) N D.
Proof.
  intros [HN HD] Hm. apply has_shape_map; [done|].
  eapply Forall_impl; [exact HD|]. intros row Hrow. simpl in *.
  rewrite length_zip_with. lia.
Qed.

Lemma matmul_T_shape X C N : length X = N → has_shape (matmul_T X C) N (length C).
Proof.
  intros HN. apply has_shape_map; [done|].
  apply Forall_forall. intros row _. by rewrite length_map.
Qed.

Lemma check_array_ok X N D :
  has_shape X N D → 0 < N → 0 < D → Sklearn.check_array X = Return tt.
Proof.
  intros HX HN HD. unfold Sklearn.check_array, nrows.
  rewrite (has_shape_ncols X N D HX HN). destruct HX as [-> _].
  destruct N, D; simpl; done || lia.
Qed.

Section Fitted.

Variable svd : matrix → matrix * vector * matrix.
Hypothesis svd_ok : svd_shapes svd.

Lemma fit_transform_shape X N D k :
  has_shape X N D → 0 < N → 0 < D → k ≤ N `min` D →
  ∃ pca T, Sklearn.fit_transform svd k X = Return (pca, T) ∧
           has_shape T N k ∧
           Sklearn.n_features_in_ pca = D ∧
           length (Sklearn.components_ pca) = k.
Proof.
  intros HX HN HD Hk. unfold Sklearn.fit_transform.
  rewrite (check_array_ok X N D) by done. simpl.
  pose proof (has_shape_ncols X N D HX HN) as Hcols.
  assert (nrows X = N) as Hrows by apply HX.
  rewrite Hrows, Hcols.
  destruct (N `min` D <? k) eqn:Hlt; [apply Nat.ltb_lt in Hlt; lia|].
  assert (has_shape (sub_rows X (column_means X)) N D) as Hc.
  { apply sub_rows_shape; [done|]. unfold column_means.
    by rewrite length_map, columns_length. }
  destruct (svd_ok _ N D Hc HN HD) as (HU & HS & HVt).
  destruct (svd (sub_rows X (column_means X))) as [[U sigma] Vt]. simpl in *.
  eexists _, _. split; [done|]. simpl. split_and!.
  - destruct HU as [HUN HUD]. split.
    + by rewrite !length_map.
    + rewrite Forall_map, Forall_map.
      eapply Forall_impl; [exact HUD|]. intros row Hrow. simpl in *.
      rewrite length_zip_with, !length_take. lia.
  - done.
  - destruct HVt as [HVN _]. rewrite length_take. lia.
Qed.

End Fitted.

Lemma transform_shape pca Xv M D :
  has_shape Xv M D → 0 < M → 0 < D → Sklearn.n_features_in_ pca = D →
  ∃ T, Sklearn.transform pca Xv = Return T ∧
       has_shape T M (length (Sklearn.components_ pca)).
Proof.
  intros HX HM HD Hf. unfold Sklearn.transform.
  rewrite (check_array_ok Xv M D) by done. simpl.
  rewrite (has_shape_ncols Xv M D HX HM), Hf, Nat.eqb_refl. simpl.
  eexists. split; [done|]. apply matmul_T_shape.
  unfold sub_rows. rewrite length_map. apply HX.
Qed.

Lemma compute_pca_Return svd X Xv k pca T Tv w :
  Sklearn.fit_transform svd k X = Return (pca, T) →
  Sklearn.transform pca Xv = Return Tv →
  compute_pca svd X Xv k w = (Return (T, Tv), after_compute_pca w).
Proof.
  intros Hfit Htr. unfold compute_pca, print_no_newline, print, emit, lift.
  unfold mbind, M_bind, bind, mret, M_ret, ret. simpl. by rewrite Hfit, Htr.
Qed.

Lemma compute_pca_inv svd X Xv k a b w w' :
  compute_pca svd X Xv k w = (Return (a, b), w') →
  w' = after_compute_pca w ∧
  ∃ pca, Sklearn.fit_transform svd k X = Return (pca, a) ∧
         Sklearn.transform pca Xv = Return b.
Proof.
  unfold compute_pca, print_no_newline, print, emit, lift.
  unfold mbind, M_bind, bind, mret, M_ret, ret. simpl.
  destruct (Sklearn.fit_transform svd k X) as [[pca T]|e] eqn:Hfit; [|done].
  destruct (Sklearn.transform pca Xv) as [Tv|e] eqn:Htr; [|done].
  intros [= <- <- <-]. split; [done|]. by exists pca.
Qed.

Lemma compute_pca_shapes svd X Xv N M D k w :
  svd_shapes svd →
  has_shape X N D → has_shape Xv M D → 0 < N → 0 < M → 0 < D → k ≤ N `min` D →
  ∃ a b, compute_pca svd X Xv k w = (Return (a, b), after_compute_pca w) ∧
         has_shape a N k ∧ has_shape b M k.
Proof.
  intros Hsvd HX HXv HN HM HD Hk.
  destruct (fit_transform_shape svd Hsvd X N D k HX HN HD Hk)
    as (pca & T & Hfit & HT & Hfeat & Hcomp).
  destruct (transform_shape pca Xv M D HXv HM HD Hfeat) as (Tv & Htr & HTv).
  exists T, Tv. split; [by eapply compute_pca_Return|].
  split; [done|]. by rewrite <-Hcomp.
Qed.

(** An empty training array is rejected by the input validation. *)
Lemma compute_pca_empty svd Xv k w :
  compute_pca svd [] Xv k w = (Raise ValueError, log (Stdout "Computing PCA... ") w).
Proof. done. Qed.

Lemma zero_matrix_svd_shapes : svd_shapes zero_matrix_svd.
Proof.
  intros X N D HX HN HD. unfold zero_matrix_svd. simpl.
  rewrite (has_shape_ncols X N D HX HN).
  assert (nrows X = N) as -> by apply HX.
  split_and!.
  - apply has_shape_map; [by rewrite length_seq|].
    apply Forall_forall. intros i _. unfold unit_row. by rewrite length_map, length_seq.
  - by rewrite length_replicate.
  - apply has_shape_map; [by rewrite length_seq|].
    apply Forall_forall. intros i _. unfold unit_row. by rewrite length_map, length_seq.
Qed.

(** On a cache miss [get_pca] runs [compute_pca] and then tries to write the
    pickle, which needs the directory of the cache file. *)
Lemma get_pca_miss svd X Xv k w a b :
  path_exists pkl_file w = false →
  compute_pca svd X Xv k w = (Return (a, b), after_compute_pca w) →
  get_pca svd X Xv k w
  = if parent_exists pkl_file w
    then (Return (a, b),
          log (Stdout ("PCA model and transformed data saved as pickle!" ++ nl))
            (write_file pkl_file
               (PickleFile {["X_train_pca" := a; "X_val_pca" := b]}) (after_miss w)))
    else (Raise FileNotFoundError, after_miss w).
Proof.
  intros Hmiss Hc. unfold get_pca.
  rewrite (bind_Return _ _ w false w) by (unfold os_path_exists; by rewrite Hmiss).
  apply compute_pca_inv in Hc as (_ & pca & Hfit & Htr).
  pose proof (compute_pca_Return svd X Xv k pca a b
    (log (Stdout ("PCA Pickle file does not exist." ++ nl)) w) Hfit Htr) as Hc.
  rewrite (bind_Return _ _ w tt (log (Stdout ("PCA Pickle file does not exist." ++ nl)) w))
    by done.
  rewrite (bind_Return _ _ _ _ _ Hc). cbv beta iota.
  apply path_exists_false in Hmiss as [_ Hdir].
  unfold mbind, M_bind, bind, pickle_dump_to.
  rewrite bool_decide_eq_false_2 by done.
  change (parent_exists pkl_file (after_compute_pca _)) with (parent_exists pkl_file w).
  destruct (parent_exists pkl_file w); done.
Qed.

Lemma dirname_pkl_file : dirname pkl_file = "out/linear_models".
Proof. reflexivity. Qed.

End PCAFacts.

(** ** Facts about the metrics *)

Module MetricsFacts.
Import Numpy IO Utils Notions IOFacts PCAFacts.
Local Open Scope R_scope.

Lemma zip_with_same {A B} (f : A → A → B) l : zip_with f l l = map (λ a, f a a) l.
Proof. induction l as [|a l IH]; simpl; [done|]. by rewrite IH. Qed.

Lemma map_pointwise {A B} (f g : A → B) l :
  (∀ a, a ∈ l → f a = g a) → map f l = map g l.
Proof.
  induction l as [|a l IH]; intros H; simpl; [done|].
  rewrite H by apply list_elem_of_here. rewrite IH; [done|].
  intros b Hb. apply H. by apply list_elem_of_further.
Qed.

Lemma Rsum_const {A} (c : R) (l : list A) : Rsum (map (λ _, c) l) = INR (length l) * c.
Proof.
  induction l as [|a l IH]; [simpl; ring|].
  change (Rsum (map (λ _, c) (a :: l))) with (c + Rsum (map (λ _, c) l)).
  rewrite IH, length_cons, S_INR. ring.
Qed.

Lemma mean_const {A} (c : R) (l : list A) : l ≠ [] → mean (map (λ _, c) l) = c.
Proof.
  intros Hne. unfold mean. rewrite Rsum_const, length_map.
  assert (INR (length l) ≠ 0) as Hn.
  { apply not_0_INR. destruct l; simpl; [done|lia]. }
  field. done.
Qed.

Lemma mean_zero {A} (l : list A) : mean (map (λ _, 0) l) = 0.
Proof. unfold mean. rewrite Rsum_const. unfold Rdiv. ring. Qed.

Lemma Rsum_scale (c : R) (f : R → R) l :
  Rsum (map (λ a, f a * c) l) = Rsum (map f l) * c.
Proof.
  induction l as [|a l IH]; [simpl; ring|].
  change (f a * c + Rsum (map (λ a, f a * c) l) = (f a + Rsum (map f l)) * c).
  rewrite IH. ring.
Qed.

Lemma Rsum_squares_nonneg l : 0 <= Rsum (map (λ a, a * a) l).
Proof.
  induction l as [|a l IH]; [simpl; lra|].
  change (0 <= a * a + Rsum (map (λ a, a * a) l)).
  pose proof (Rle_0_sqr a) as Ha. unfold Rsqr in Ha. lra.
Qed.

Lemma Rsum_squares_zero l :
  Rsum (map (λ a, a * a) l) = 0 → Forall (λ a, a = 0) l.
Proof.
  induction l as [|a l IH]; [constructor|].
  change (a * a + Rsum (map (λ a, a * a) l) = 0 → Forall (λ a, a = 0) (a :: l)).
  intros H. pose proof (Rsum_squares_nonneg l) as Hl.
  pose proof (Rle_0_sqr a) as Ha. unfold Rsqr in Ha.
  constructor.
  - apply Rsqr_0_uniq. unfold Rsqr. lra.
  - apply IH. lra.
Qed.

(** *** Metrics of a perfect prediction *)

Lemma check_reg_targets_self y N D :
  has_shape y N D → (0 < N)%nat → (0 < D)%nat → Sklearn.check_reg_targets y y = Return tt.
Proof.
  intros Hy HN HD. unfold Sklearn.check_reg_targets.
  rewrite (check_array_ok y N D) by done. simpl.
  by rewrite !Nat.eqb_refl.
Qed.




Lemma columns_nonempty y N D : has_shape y N D → (0 < N)%nat → (0 < D)%nat → columns y ≠ [].
Proof.
  intros Hy HN HD Hnil. pose proof (columns_length y) as Hlen.
  rewrite Hnil, (has_shape_ncols y N D Hy HN) in Hlen. simpl in Hlen. lia.
Qed.




(** *** Pearson correlation of a vector with itself *)

Lemma is_constant_true x : Scipy.is_constant x = true ↔ ∃ c, Forall (λ v, v = c) x.
Proof.
  destruct x as [|x0 x]; simpl.
  - split; [|done]. intros _. exists 0. constructor.
  - rewrite bool_decide_eq_true. split.
    + intros H. by exists x0.
    + intros [c Hc]. inversion Hc as [|? ? -> Hrest]; subst.
      constructor; [done|]. done.
Qed.

Lemma centred_zero_constant x :
  Forall (λ a, a = 0) (map (λ a, a - mean x) x) → Scipy.is_constant x = true.
Proof.
  intros H. apply is_constant_true. exists (mean x).
  rewrite Forall_map in H. eapply Forall_impl; [exact H|].
  intros a Ha. simpl in Ha. lra.
Qed.

Lemma pearsonr_self_constant x :
  (2 ≤ length x)%nat → Scipy.is_constant x = true → Scipy.pearsonr x x = Return NaN.
Proof.
  intros Hlen Hc. unfold Scipy.pearsonr. rewrite Nat.eqb_refl. simpl.
  destruct (length x <? 2)%nat eqn:Hlt; [apply Nat.ltb_lt in Hlt; lia|].
  by rewrite Hc.
Qed.

Lemma pearsonr_self_varying x :
  (2 ≤ length x)%nat → Scipy.is_constant x = false → Scipy.pearsonr x x = Return (Finite 1).
Proof.
  intros Hlen Hc. unfold Scipy.pearsonr. rewrite Nat.eqb_refl. simpl.
  destruct (length x <? 2)%nat eqn:Hlt; [apply Nat.ltb_lt in Hlt; lia|].
  rewrite Hc. simpl. do 2 f_equal.
  set (xm := map (λ a, a - mean x) x).
  set (S := Rsum (map (λ a, a * a) xm)).
  assert (0 < S) as HS.
  { pose proof (Rsum_squares_nonneg xm) as Hge. fold S in Hge.
    destruct (decide (S = 0)) as [H0|Hne]; [|lra].
    apply Rsum_squares_zero, centred_zero_constant in H0. congruence. }
  assert (dot (map (λ a, a / Scipy.norm xm) xm) (map (λ a, a / Scipy.norm xm) xm) = 1) as ->.
  { unfold dot. rewrite zip_with_same, map_map.
    rewrite (map_pointwise _ (λ a, (a * a) * (/ Scipy.norm xm * / Scipy.norm xm)))
      by (intros; unfold Rdiv; ring).
    rewrite (Rsum_scale _ (λ a, a * a)). fold S.
    unfold Scipy.norm. fold S. rewrite <-Rinv_mult, sqrt_sqrt by lra.
    apply Rinv_r. lra. }
  unfold Rmin, Rmax. repeat destruct (Rle_dec _ _); lra.
Qed.

Lemma pearsonr_self x :
  (2 ≤ length x)%nat → Scipy.pearsonr x x = Return (self_correlation x).
Proof.
  intros Hlen. unfold self_correlation. destruct (Scipy.is_constant x) eqn:Hc.
  - by apply pearsonr_self_constant.
  - by apply pearsonr_self_varying.
Qed.

Lemma list_comprehension_map {A B} (f : A → result B) (g : A → B) l :
  (∀ a, a ∈ l → f a = Return (g a)) → list_comprehension f l = Return (map g l).
Proof.
  induction l as [|a l IH]; intros H; simpl; [done|].
  rewrite H by apply list_elem_of_here. simpl.
  rewrite IH; [done|]. intros b Hb. apply H. by apply list_elem_of_further.
Qed.


End MetricsFacts.

(** ** Facts about the de-normalisation *)

Module VisualizeFacts.
Import Numpy IO Utils Notions MetricsFacts.
Local Open Scope R_scope.

Lemma nth_zero_row (row : vector) j : Forall (λ x, x = 0) row → nth j row 0 = 0.
Proof.
  intros H. destruct (nth_in_or_default j row 0) as [Hin|Hd]; [|done].
  rewrite Forall_forall in H. apply H. by apply list_elem_of_In.
Qed.

Lemma nth_zero_channel (ch : matrix) h j :
  Forall (Forall (λ x, x = 0)) ch → nth j (nth h ch []) 0 = 0.
Proof.
  intros H. apply nth_zero_row.
  destruct (nth_in_or_default h ch []) as [Hin|Hd].
  - rewrite Forall_forall in H. apply H. by apply list_elem_of_In.
  - rewrite Hd. constructor.
Qed.

Lemma map_const_seq {A} (c : A) a n : map (λ _, c) (seq a n) = replicate n c.
Proof. revert a. induction n as [|n IH]; intros a; simpl; [done|]. by rewrite IH. Qed.

(** The de-normalised value of a black RGB pixel. *)
Lemma denormalize_zero_pixel :
  map (λ x, x * 255)
    (zip_with Rplus (broadcast_pixel Rmult [0; 0; 0] normalize_std) normalize_mean)
  = map (λ m, m * 255) normalize_mean.
Proof.
  unfold broadcast_pixel, normalize_std, normalize_mean. simpl.
  repeat f_equal; lra.
Qed.

End VisualizeFacts.

(** ** Further facts about the label encoding *)

Module MoreLabelFacts.
Import Labels Notions MoreNotions LabelFacts.

Lemma leading_letters_split s :
  ∃ rest, s = leading_letters s ++ rest ∧
          all_letters (leading_letters s) = true ∧
          starts_with_letter rest = false.
Proof.
  induction s as [|c s (rest & Hs & Hall & Hrest)]; simpl.
  - by exists "".
  - destruct (is_ascii_letter c) eqn:Hc.
    + exists rest. split_and!; [|simpl; by rewrite Hc, Hall|done].
      change (String c s = String c (leading_letters s ++ rest)). by f_equal.
    + exists (String c s). by split_and!.
Qed.

Lemma append_cons c (a b : string) : String c a ++ b = String c (a ++ b).
Proof. reflexivity. Qed.

Lemma append_empty_r (a : string) : a ++ "" = a.
Proof. induction a as [|c a IH]; [done|]. by rewrite append_cons, IH. Qed.

Lemma leading_letters_app b rest :
  all_letters b = true → starts_with_letter rest = false →
  leading_letters (b ++ rest) = b.
Proof.
  intros Hb Hrest. induction b as [|c b IH].
  - change ("" ++ rest) with rest.
    destruct rest as [|c rest]; simpl in *; [done|]. by rewrite Hrest.
  - simpl in Hb. apply andb_true_iff in Hb as [Hc Hb].
    rewrite append_cons. simpl. by rewrite Hc, IH.
Qed.

Lemma base_name_inv s b : base_name s = Return b → b = leading_letters s ∧ b ≠ "".
Proof.
  unfold base_name, re_match_letters.
  destruct (leading_letters s); [done|]. by intros [= <-].
Qed.

Lemma base_name_of_letters b : all_letters b = true → b ≠ "" → base_name b = Return b.
Proof.
  intros Hb Hne.
  pose proof (leading_letters_app b "" Hb eq_refl) as H.
  rewrite append_empty_r in H.
  unfold base_name, re_match_letters. rewrite H. by destruct b.
Qed.

Lemma base_name_is_leading_run_aux s b :
  base_name s = Return b → b ≠ "" ∧ all_letters b = true.
Proof.
  intros [-> Hne]%base_name_inv. split; [done|].
  by destruct (leading_letters_split s) as (rest & _ & Hall & _).
Qed.

Lemma base_names_elem_of objs base_names b :
  Forall2 (λ o b, base_name o = Return b) objs base_names →
  b ∈ base_names ↔ ∃ o, o ∈ objs ∧ base_name o = Return b.
Proof.
  induction 1 as [|o b' objs base_names Hob _ IH].
  - split; [by intros ?%elem_of_nil|]. by intros (o & ?%elem_of_nil & _).
  - rewrite elem_of_cons, IH. split.
    + intros [->|(o' & Ho' & Hb)].
      * exists o. split; [apply list_elem_of_here|done].
      * exists o'. split; [by apply list_elem_of_further|done].
    + intros (o' & [->|Ho']%elem_of_cons & Hb).
      * left. congruence.
      * right. by exists o'.
Qed.

Lemma encode_Raise_inv objs e :
  encode_object_base_labels objs = Raise e →
  e = AttributeError ∧ Exists (λ o, starts_with_letter o = false) objs.
Proof.
  unfold encode_object_base_labels.
  destruct (list_comprehension base_name objs) as [base_names|e'] eqn:Hb; simpl.
  - destruct (labels_total base_names) as [labels ->]. done.
  - intros [= ->]. clear -Hb.
    induction objs as [|o objs IH]; simpl in Hb; [done|].
    destruct (starts_with_letter o) eqn:Ho.
    + rewrite (base_name_Return o Ho) in Hb. simpl in Hb.
      destruct (list_comprehension base_name objs) as [ys|e'] eqn:Hl; simpl in Hb; [done|].
      injection Hb as ->. destruct (IH eq_refl) as [-> Hex]. split; [done|].
      by apply Exists_cons_tl.
    + rewrite (base_name_Raise o Ho) in Hb. simpl in Hb. injection Hb as <-.
      split; [done|]. by apply Exists_cons_hd.
Qed.

End MoreLabelFacts.

(** ** Further facts about files, downloads and the cache *)

Module MoreIOFacts.
Import Numpy IO Utils Loading Notions MoreNotions IOFacts PCAFacts.

Ltac run_M :=
  unfold mbind, M_bind, bind, mret, M_ret, ret, lift, emit, raise, print,
    print_no_newline, getitem, os_path_exists, getitem_list in *.

Lemma append_assoc (a b c : string) : (a ++ b) ++ c = a ++ (b ++ c).
Proof.
  induction a as [|x a IH]; [done|].
  change (String x ((a ++ b) ++ c) = String x (a ++ (b ++ c))). by rewrite IH.
Qed.

Lemma ends_with_slash_app a : ends_with_slash (a ++ "/") = true.
Proof.
  induction a as [|x a IH]; [done|].
  change (ends_with_slash (String x (a ++ "/")) = true).
  simpl. destruct (a ++ "/") eqn:Ha; [|done].
  destruct a; discriminate.
Qed.

Lemma os_path_join_trailing_slash a b :
  a ≠ "" → ends_with_slash a = false →
  os_path_join (a ++ "/") b = os_path_join a b.
Proof.
  intros Hne Hs. unfold os_path_join. rewrite ends_with_slash_app, Hs.
  destruct a as [|x a]; [done|].
  change (String x a ++ "/") with (String x (a ++ "/")).
  change (String x (a ++ "/") ++ b = String x a ++ "/" ++ b).
  apply (append_assoc (String x a) "/" b).
Qed.

Section Download.

Variable remote : list event → string → response.

Lemma download_it_data_run path w :
  download_it_data remote path w
  = if path_exists (os_path_join path "IT_data.h5") w
    then (Return tt, log (Stdout ("File already exists. Skipping download." ++ nl)) w)
    else match remote (trace w) it_data_url with
         | Fetched c =>
             if parent_exists (os_path_join path "IT_data.h5") w
             then (Return tt,
                   write_file (os_path_join path "IT_data.h5") (DataFile c)
                     (log (Download it_data_url (Fetched c)) w))
             else (Raise FileNotFoundError, log (Download it_data_url (Fetched c)) w)
         | Refused => (Return tt, log (Download it_data_url Refused) w)
         | Failed => (Raise NetworkError, log (Download it_data_url Failed) w)
         end.
Proof.
  unfold download_it_data. run_M.
  destruct (path_exists _ w); simpl; [done|].
  unfold Gdown.download. fold it_data_url.
  destruct (remote (trace w) it_data_url); [|done|done].
  by destruct (parent_exists _ w).
Qed.

End Download.

(** *** [get_pca] *)

Lemma get_pca_hit svd X Xv k w cache a b :
  files w !! pkl_file = Some (PickleFile cache) →
  cache !! "X_train_pca" = Some a → cache !! "X_val_pca" = Some b →
  get_pca svd X Xv k w = (Return (a, b), log (Stdout cache_hit_message) w).
Proof.
  intros Hfile Ha Hb. unfold get_pca.
  rewrite (bind_Return _ _ w true w).
  2:{ unfold os_path_exists. by rewrite (path_exists_file _ _ _ Hfile). }
  unfold pickle_load_from, Labels.dict_getitem. run_M.
  unfold Labels.dict_getitem. simpl. by rewrite Hfile, Ha, Hb.
Qed.

Lemma compute_pca_run svd X Xv k w :
  compute_pca svd X Xv k w
  = match Sklearn.fit_transform svd k X with
    | Return (pca, T) =>
        match Sklearn.transform pca Xv with
        | Return Tv => (Return (T, Tv), after_compute_pca w)
        | Raise e => (Raise e, log (Stdout "Computing PCA... ") w)
        end
    | Raise e => (Raise e, log (Stdout "Computing PCA... ") w)
    end.
Proof.
  unfold compute_pca. run_M. simpl.
  destruct (Sklearn.fit_transform svd k X) as [[pca T]|e]; [|done].
  by destruct (Sklearn.transform pca Xv).
Qed.

Lemma compute_pca_frame svd X Xv k w r w' :
  compute_pca svd X Xv k w = (r, w') → dirs w' = dirs w ∧ files w' = files w.
Proof.
  rewrite compute_pca_run.
  destruct (Sklearn.fit_transform svd k X) as [[pca T]|e].
  - destruct (Sklearn.transform pca Xv); by intros [= <- <-].
  - by intros [= <- <-].
Qed.

Lemma get_pca_run svd X Xv k w :
  get_pca svd X Xv k w
  = if path_exists pkl_file w
    then
      match pickle_load_from pkl_file (log (Stdout cache_hit_message) w) with
      | (Return cache, w1) =>
          match cache !! "X_train_pca", cache !! "X_val_pca" with
          | Some a, Some b => (Return (a, b), w1)
          | _, _ => (Raise KeyError, w1)
          end
      | (Raise e, w1) => (Raise e, w1)
      end
    else
      match compute_pca svd X Xv k (log (Stdout ("PCA Pickle file does not exist." ++ nl)) w) with
      | (Return (a, b), w1) =>
          match pickle_dump_to pkl_file {["X_train_pca" := a; "X_val_pca" := b]} w1 with
          | (Return _, w2) =>
              (Return (a, b),
               log (Stdout ("PCA model and transformed data saved as pickle!" ++ nl)) w2)
          | (Raise e, w2) => (Raise e, w2)
          end
      | (Raise e, w1) => (Raise e, w1)
      end.
Proof.
  unfold get_pca. run_M. unfold Labels.dict_getitem. simpl.
  destruct (path_exists pkl_file w).
  - fold cache_hit_message.
    destruct (pickle_load_from pkl_file _) as [[cache|e] w1]; [|done].
    destruct (cache !! "X_train_pca"); [|done].
    by destruct (cache !! "X_val_pca").
  - destruct (compute_pca svd X Xv k _) as [[[a b]|e] w1]; [|done].
    by destruct (pickle_dump_to pkl_file _ w1) as [[[]|e] w2].
Qed.

Lemma pickle_load_from_frame path w r w' :
  pickle_load_from path w = (r, w') → w' = w.
Proof.
  unfold pickle_load_from.
  destruct (files w !! path) as [[cache|c]|]; try by intros [= _ <-].
  by destruct (bool_decide _); intros [= _ <-].
Qed.

Lemma pickle_dump_to_inv path obj w r w' :
  pickle_dump_to path obj w = (r, w') →
  (r = Return tt ∧ w' = write_file path (PickleFile obj) w) ∨
  (∃ e, r = Raise e ∧ w' = w).
Proof.
  unfold pickle_dump_to. destruct (bool_decide _).
  - intros [= <- <-]. right. by eexists.
  - destruct (parent_exists path w); intros [= <- <-]; [by left|right; by eexists].
Qed.

(** *** [load_it_data] *)

Section Container.

Variable h5py_File : file → result (gmap string dataset).

Lemma open_h5_frame path w r w' : open_h5 h5py_File path w = (r, w') → w' = w.
Proof.
  unfold open_h5. destruct (files w !! path); [by intros [= _ <-]|].
  by destruct (bool_decide _); intros [= _ <-].
Qed.

Lemma load_it_data_run path w :
  load_it_data h5py_File path w
  = match open_h5 h5py_File (os_path_join path "IT_data.h5") w with
    | (Return d, _) =>
        match d !! "stimulus_train", d !! "spikes_train", d !! "object_train",
              d !! "stimulus_val", d !! "spikes_val", d !! "object_val",
              d !! "stimulus_test", d !! "object_test" with
        | Some st, Some kt, Some ot, Some sv, Some kv, Some ov, Some ss, Some os =>
            match decode_objects ot with
            | Return nt =>
                match decode_objects ov with
                | Return nv =>
                    match decode_objects os with
                    | Return ns => (Return (mkItData st sv ss nt nv ns kt kv), w)
                    | Raise e => (Raise e, w)
                    end
                | Raise e => (Raise e, w)
                end
            | Raise e => (Raise e, w)
            end
        | _, _, _, _, _, _, _, _ => (Raise KeyError, w)
        end
    | (Raise e, _) => (Raise e, w)
    end.
Proof.
  unfold load_it_data. run_M. unfold Labels.dict_getitem.
  destruct (open_h5 h5py_File _ w) as [[d|e] w1] eqn:Hopen;
    apply open_h5_frame in Hopen as ->; [|done].
  repeat (match goal with
          | |- context [d !! ?k] => destruct (d !! k); [|done]
          end).
  repeat (match goal with
          | |- context [decode_objects ?o] => destruct (decode_objects o); [|done]
          end).
  done.
Qed.

End Container.

Lemma decode_objects_bytes l :
  decode_objects (ByteStrings l) = Return (map decode_latin1 l).
Proof.
  unfold decode_objects. induction l as [|b l IH]; simpl; [done|]. by rewrite IH.
Qed.

Lemma encode_decode_latin1 l : map list_byte_of_string (map decode_latin1 l) = l.
Proof.
  induction l as [|b l IH]; simpl; [done|].
  unfold decode_latin1 at 1. by rewrite list_byte_of_string_of_list_byte, IH.
Qed.

Lemma get_pca_Return_inv svd X Xv k w a b w1 :
  get_pca svd X Xv k w = (Return (a, b), w1) →
  ∃ cache, files w1 !! pkl_file = Some (PickleFile cache) ∧
           cache !! "X_train_pca" = Some a ∧ cache !! "X_val_pca" = Some b.
Proof.
  rewrite get_pca_run. destruct (path_exists pkl_file w).
  - unfold pickle_load_from. simpl.
    destruct (files w !! pkl_file) as [[cache|c]|] eqn:Hf.
    + destruct (cache !! "X_train_pca") as [a'|] eqn:Ha; [|done].
      destruct (cache !! "X_val_pca") as [b'|] eqn:Hb; [|done].
      intros [= <- <- <-]. by exists cache.
    + done.
    + by destruct (bool_decide _).
  - destruct (compute_pca svd X Xv k _) as [[[a' b']|e] w0]; [|done].
    destruct (pickle_dump_to pkl_file _ w0) as [[[]|e] w2] eqn:Hdump; [|done].
    intros [= <- <- <-].
    apply pickle_dump_to_inv in Hdump as [[_ ->]|(e & [=] & _)].
    eexists. simpl. rewrite lookup_insert_eq. split; [done|]. by split.
Qed.

Lemma get_pca_frame_files svd X Xv k w r w' :
  get_pca svd X Xv k w = (r, w') →
  dirs w' = dirs w ∧ ∀ p, p ≠ pkl_file → files w' !! p = files w !! p.
Proof.
  rewrite get_pca_run. destruct (path_exists pkl_file w).
  - destruct (pickle_load_from pkl_file _) as [[cache|e] w1] eqn:Hload;
      apply pickle_load_from_frame in Hload as ->.
    + destruct (cache !! "X_train_pca"); [|by intros [= <- <-]].
      by destruct (cache !! "X_val_pca"); intros [= <- <-].
    + by intros [= <- <-].
  - destruct (compute_pca svd X Xv k _) as [[[a b]|e] w1] eqn:Hc;
      apply compute_pca_frame in Hc as [Hd Hf]; simpl in Hd, Hf.
    + destruct (pickle_dump_to pkl_file _ w1) as [[[]|e] w2] eqn:Hdump;
        apply pickle_dump_to_inv in Hdump as [[Hr ->]|(e' & Hr & ->)];
        try done; intros [= <- <-]; simpl; (split; [done|]); intros p Hp.
      * by rewrite lookup_insert_ne, Hf.
      * by rewrite Hf.
    + intros [= <- <-]. split; [done|]. intros p _. by rewrite Hf.
Qed.

(** *** Rejected requests to the decomposition *)

Lemma fit_transform_too_many svd X N D k :
  has_shape X N D → 0 < N → 0 < D → N `min` D < k →
  Sklearn.fit_transform svd k X = Raise ValueError.
Proof.
  intros HX HN HD Hk. unfold Sklearn.fit_transform.
  rewrite (check_array_ok X N D) by done. simpl.
  rewrite (has_shape_ncols X N D HX HN).
  assert (nrows X = N) as -> by apply HX.
  by rewrite (proj2 (Nat.ltb_lt _ _) Hk).
Qed.

Lemma transform_wrong_width pca Xv M D :
  has_shape Xv M D → 0 < M → 0 < D → Sklearn.n_features_in_ pca ≠ D →
  Sklearn.transform pca Xv = Raise ValueError.
Proof.
  intros HX HM HD Hne. unfold Sklearn.transform.
  rewrite (check_array_ok Xv M D) by done. simpl.
  rewrite (has_shape_ncols Xv M D HX HM).
  by rewrite (proj2 (Nat.eqb_neq _ _)).
Qed.

End MoreIOFacts.

(** ** Further facts about the visualisation *)

Module MoreVisualizeFacts.
Import Numpy IO Utils Notions MoreNotions IOFacts PCAFacts MetricsFacts
  VisualizeFacts MoreIOFacts.

Lemma visualize_img_run stimulus objects stim_idx w :
  visualize_img stimulus objects stim_idx w
  = match stimulus !! stim_idx with
    | None => (Raise IndexError, w)
    | Some img =>
        if (length img =? 3) || (length img =? 1) then
          match objects !! stim_idx with
          | Some name =>
              (Return tt,
               mkWorld (dirs w) (files w)
                 (trace w ++ [NewFigure; ImShow (shown_pixels img); Title name; Show]))
          | None =>
              (Raise IndexError,
               mkWorld (dirs w) (files w)
                 (trace w ++ [NewFigure; ImShow (shown_pixels img)]))
          end
        else (Raise ValueError, w)
    end.
Proof.
  unfold visualize_img. run_M.
  destruct (stimulus !! stim_idx) as [img|]; simpl; [|done].
  destruct ((length img =? 3) || (length img =? 1)); simpl; [|done].
  unfold emit, log, shown_pixels. simpl.
  destruct (objects !! stim_idx); simpl.
  - do 2 f_equal. rewrite <-!app_assoc. reflexivity.
  - do 2 f_equal. rewrite <-!app_assoc. reflexivity.
Qed.

Lemma astype_uint8_range x : (0 ≤ astype_uint8 x < 256)%Z.
Proof. unfold astype_uint8. apply Z.mod_pos_bound. lia. Qed.

Lemma transpose_120_pixel_length img :
  Forall (Forall (λ px : vector, length px = length img)) (transpose_120 img).
Proof.
  unfold transpose_120. apply Forall_map, Forall_forall. intros h _. simpl.
  apply Forall_map, Forall_forall. intros j _. simpl. by rewrite length_map.
Qed.

Lemma denormalize_pixel_length (img_tmp : list (list vector)) C :
  C = 3 ∨ C = 1 →
  Forall (Forall (λ px : vector, length px = C)) img_tmp →
  Forall (Forall (λ px : vector, length px = 3)) (denormalize img_tmp).
Proof.
  intros HC Hall. unfold denormalize. apply Forall_map.
  eapply Forall_impl; [exact Hall|]. intros row Hrow. simpl in *.
  apply Forall_map. eapply Forall_impl; [exact Hrow|]. intros px Hpx. simpl in *.
  rewrite length_map, length_zip_with. unfold broadcast_pixel, normalize_std, normalize_mean.
  destruct HC as [->| ->]; rewrite Hpx; simpl.
  - rewrite length_zip_with, Hpx. done.
  - done.
Qed.

Lemma map_nth_seq {A B} (f : A → B) (d : A) (l : list A) :
  map (λ i, f (nth i l d)) (seq 0 (length l)) = map f l.
Proof.
  induction l as [|x l IH]; simpl; [done|].
  f_equal. rewrite <-seq_shift, map_map. exact IH.
Qed.

Lemma transpose_120_single (ch : matrix) H W :
  has_shape ch H W → transpose_120 [ch] = map (map (λ x, [x])) ch.
Proof.
  intros [HH HW]. unfold transpose_120.
  change (map (λ h, map (λ j, [nth j (nth h ch []) 0%R])
                 (seq 0 match ch with row :: _ => length row | [] => 0 end))
            (seq 0 (length ch))
          = map (map (λ x, [x])) ch).
  rewrite (map_nth_seq (λ row, map (λ j, [nth j row 0%R])
             (seq 0 match ch with row :: _ => length row | [] => 0 end)) [] ch).
  apply map_pointwise. intros row Hrow.
  assert (match ch with row :: _ => length row | [] => 0 end = length row) as ->.
  { rewrite Forall_forall in HW. rewrite (HW row Hrow).
    destruct ch as [|r0 ch]; [by apply elem_of_nil in Hrow|].
    apply HW, list_elem_of_here. }
  apply (map_nth_seq (λ x, [x])).
Qed.

End MoreVisualizeFacts.

(** ** Further facts about the metrics *)

Module MoreMetricsFacts.
Import Numpy IO Utils Notions MoreNotions LabelFacts IOFacts PCAFacts MetricsFacts
  MoreIOFacts.
Local Open Scope R_scope.

Lemma compute_metrics_run y1 y2 w :
  compute_metrics y1 y2 w
  = match Sklearn.check_reg_targets y1 y2 with
    | Raise e => (Raise e, w)
    | Return _ =>
        match correlations y1 y2 with
        | Raise e => (Raise e, w)
        | Return corr =>
            (Return (metrics_values y1 y2 corr),
             log (scores_line (metrics_values y1 y2 corr)) w)
        end
    end.
Proof.
  unfold compute_metrics, Sklearn.r2_score, Sklearn.mean_squared_error,
    Sklearn.mean_absolute_error, Sklearn.mean_absolute_percentage_error,
    Sklearn.explained_variance_avg, Sklearn.explained_variance_raw, correlations.
  run_M. destruct (Sklearn.check_reg_targets y1 y2) as [[]|e]; simpl; [|done].
  destruct (nrows y2 <? 2)%nat eqn:Hn; simpl.
  - destruct (list_comprehension _ _); simpl; [|done].
    unfold metrics_values, scores_line. simpl. by rewrite Hn.
  - destruct (list_comprehension _ _); simpl; [|done].
    unfold metrics_values, scores_line. simpl. by rewrite Hn.
Qed.

Lemma check_reg_targets_inv y1 y2 :
  Sklearn.check_reg_targets y1 y2 = Return tt →
  (0 < nrows y1)%nat ∧ (0 < ncols y1)%nat ∧
  nrows y2 = nrows y1 ∧ ncols y2 = ncols y1.
Proof.
  unfold Sklearn.check_reg_targets, Sklearn.check_array.
  destruct (nrows y1 =? 0)%nat eqn:H1; simpl; [done|].
  destruct (ncols y1 =? 0)%nat eqn:H2; simpl; [done|].
  destruct ((nrows y2 =? 0)%nat || (ncols y2 =? 0)%nat); simpl; [done|].
  destruct (nrows y1 =? nrows y2)%nat eqn:H3; simpl; [|done].
  destruct (ncols y1 =? ncols y2)%nat eqn:H4; simpl; [|done].
  intros _. apply Nat.eqb_neq in H1, H2. apply Nat.eqb_eq in H3, H4. lia.
Qed.

Lemma check_reg_targets_Raise y1 y2 e :
  Sklearn.check_reg_targets y1 y2 = Raise e → e = ValueError.
Proof.
  unfold Sklearn.check_reg_targets, Sklearn.check_array.
  destruct ((nrows y1 =? 0)%nat || (ncols y1 =? 0)%nat); simpl; [congruence|].
  destruct ((nrows y2 =? 0)%nat || (ncols y2 =? 0)%nat); simpl; [congruence|].
  destruct ((nrows y1 =? nrows y2)%nat && (ncols y1 =? ncols y2)%nat); simpl; congruence.
Qed.

Lemma check_reg_targets_mismatch y1 y2 :
  nrows y1 = 0%nat ∨ ncols y1 = 0%nat ∨ nrows y2 = 0%nat ∨ ncols y2 = 0%nat ∨
  nrows y1 ≠ nrows y2 ∨ ncols y1 ≠ ncols y2 →
  Sklearn.check_reg_targets y1 y2 = Raise ValueError.
Proof.
  intros H. destruct (Sklearn.check_reg_targets y1 y2) as [[]|e] eqn:Hc.
  - apply check_reg_targets_inv in Hc. lia.
  - by apply check_reg_targets_Raise in Hc as ->.
Qed.

(** *** Sums and means of non-negative numbers *)

















(** *** A prediction compared with itself *)

Lemma mape_column_self c : Sklearn.mape_column c c = 0.
Proof.
  unfold Sklearn.mape_column. rewrite zip_with_same.
  rewrite (map_pointwise _ (λ _, 0)); [apply mean_zero|].
  intros a _. rewrite Rminus_diag, Rabs_R0. unfold Rdiv. ring.
Qed.

Lemma ev_column_self c : Sklearn.ev_column c c = 1.
Proof.
  unfold Sklearn.ev_column. rewrite zip_with_same.
  rewrite (map_pointwise (λ a, a - a) (λ _, 0)) by (intros; ring).
  rewrite mean_zero, map_map.
  rewrite (map_pointwise (λ _, Sklearn.sq (0 - 0)) (λ _, 0))
    by (intros; unfold Sklearn.sq; ring).
  rewrite mean_zero. unfold Sklearn.force_finite_score. by rewrite decide_True.
Qed.

Lemma correlations_self y N D :
  has_shape y N D → (2 ≤ N)%nat →
  correlations y y = Return (map (λ i, self_correlation (column i y)) (seq 0 D)).
Proof.
  intros Hy HN. unfold correlations.
  rewrite (has_shape_ncols y N D Hy) by lia.
  apply list_comprehension_map. intros i _. apply pearsonr_self.
  rewrite column_length. by destruct Hy as [-> _].
Qed.

Lemma finite_values_NaN l : NaN ∈ l → finite_values l = None.
Proof.
  induction l as [|c l IH]; [by intros ?%elem_of_nil|].
  intros [<-|Hin]%elem_of_cons; [done|].
  simpl. destruct c; [|done]. by rewrite IH.
Qed.

Lemma xmean_NaN l : NaN ∈ l → xmean l = NaN.
Proof. intros H. unfold xmean. by rewrite finite_values_NaN. Qed.

(** *** A single sample *)

Lemma correlations_single_sample y1 y2 D :
  has_shape y1 1 D → has_shape y2 1 D → (1 ≤ D)%nat →
  correlations y1 y2 = Raise ValueError.
Proof.
  intros H1 H2 HD. unfold correlations.
  rewrite (has_shape_ncols y1 1 D H1) by lia.
  destruct D as [|D]; [lia|].
  change (seq 0 (S D)) with (0%nat :: seq 1 D). simpl.
  unfold Scipy.pearsonr. rewrite !column_length.
  destruct H1 as [-> _], H2 as [-> _]. done.
Qed.

(** *** When the metrics are defined *)

Lemma pearsonr_total x y :
  length x = length y → (2 ≤ length x)%nat → ∃ c, Scipy.pearsonr x y = Return c.
Proof.
  intros Hlen H2. unfold Scipy.pearsonr.
  rewrite Hlen, Nat.eqb_refl. simpl.
  destruct (length y <? 2)%nat eqn:Hlt; [apply Nat.ltb_lt in Hlt; lia|].
  destruct (_ || _); by eexists.
Qed.

Lemma correlations_total y1 y2 N D :
  has_shape y1 N D → has_shape y2 N D → (2 ≤ N)%nat →
  ∃ corr, correlations y1 y2 = Return corr.
Proof.
  intros H1 H2 HN. unfold correlations.
  apply list_comprehension_total, Forall_forall. intros i _.
  apply pearsonr_total; rewrite !column_length.
  - destruct H1 as [-> _], H2 as [-> _]. done.
  - destruct H1 as [-> _]. done.
Qed.

Lemma check_reg_targets_same_shape y1 y2 N D :
  has_shape y1 N D → has_shape y2 N D → (0 < N)%nat → (0 < D)%nat →
  Sklearn.check_reg_targets y1 y2 = Return tt.
Proof.
  intros H1 H2 HN HD. unfold Sklearn.check_reg_targets.
  rewrite (check_array_ok y1 N D), (check_array_ok y2 N D) by done. simpl.
  rewrite (has_shape_ncols y1 N D H1 HN), (has_shape_ncols y2 N D H2 HN).
  unfold nrows. destruct H1 as [-> _], H2 as [-> _]. by rewrite !Nat.eqb_refl.
Qed.

Lemma compute_metrics_returns y1 y2 N D w :
  has_shape y1 N D → has_shape y2 N D → (2 ≤ N)%nat → (1 ≤ D)%nat →
  ∃ m, compute_metrics y1 y2 w = (Return m, log (scores_line m) w).
Proof.
  intros H1 H2 HN HD. rewrite compute_metrics_run.
  rewrite (check_reg_targets_same_shape y1 y2 N D) by (done || lia).
  destruct (correlations_total y1 y2 N D H1 H2 HN) as [corr ->]. by eexists.
Qed.

(** *** Exchanging the two arguments *)

Lemma zip_with_swap {A B C} (f : A → B → C) l k :
  zip_with f l k = zip_with (λ b a, f a b) k l.
Proof.
  revert k. induction l as [|a l IH]; intros [|b k]; simpl; try done. by rewrite IH.
Qed.

Lemma zip_with_pointwise {A B C} (f g : A → B → C) l k :
  (∀ a b, f a b = g a b) → zip_with f l k = zip_with g l k.
Proof.
  intros H. revert k. induction l as [|a l IH]; intros [|b k]; simpl; try done.
  by rewrite H, IH.
Qed.

Lemma mse_column_swap c1 c2 : Sklearn.mse_column c1 c2 = Sklearn.mse_column c2 c1.
Proof.
  unfold Sklearn.mse_column. rewrite (zip_with_swap _ c1 c2). f_equal.
  apply zip_with_pointwise. intros a b. unfold Sklearn.sq. ring.
Qed.

Lemma mae_column_swap c1 c2 : Sklearn.mae_column c1 c2 = Sklearn.mae_column c2 c1.
Proof.
  unfold Sklearn.mae_column. rewrite (zip_with_swap _ c1 c2). f_equal.
  apply zip_with_pointwise. intros a b. apply Rabs_minus_sym.
Qed.

Lemma dot_swap u v : dot u v = dot v u.
Proof.
  unfold dot. rewrite (zip_with_swap _ u v). f_equal.
  apply zip_with_pointwise. intros a b. ring.
Qed.

Lemma pearsonr_swap x y : Scipy.pearsonr x y = Scipy.pearsonr y x.
Proof.
  unfold Scipy.pearsonr. rewrite (Nat.eqb_sym (length y) (length x)).
  destruct (length x =? length y)%nat eqn:Hlen; simpl; [|done].
  apply Nat.eqb_eq in Hlen. rewrite Hlen.
  destruct (length y <? 2)%nat; [done|].
  rewrite (orb_comm (Scipy.is_constant y)).
  destruct (Scipy.is_constant x || Scipy.is_constant y); [done|].
  by rewrite dot_swap.
Qed.

Lemma check_reg_targets_swap y1 y2 :
  Sklearn.check_reg_targets y1 y2 = Return tt →
  Sklearn.check_reg_targets y2 y1 = Return tt.
Proof.
  intros (HN & HD & HN2 & HD2)%check_reg_targets_inv.
  destruct (Sklearn.check_reg_targets y2 y1) as [[]|e] eqn:Hc; [done|].
  exfalso. revert Hc. unfold Sklearn.check_reg_targets, Sklearn.check_array.
  rewrite HN2, HD2, !Nat.eqb_refl.
  destruct (nrows y1) as [|n]; [lia|]. destruct (ncols y1) as [|d]; [lia|]. done.
Qed.

Lemma correlations_swap y1 y2 :
  ncols y2 = ncols y1 → correlations y2 y1 = correlations y1 y2.
Proof.
  intros Hcols. unfold correlations. rewrite Hcols.
  induction (seq 0 (ncols y1)) as [|i l IH]; simpl; [done|].
  by rewrite (pearsonr_swap (column i y2)), IH.
Qed.

End MoreMetricsFacts.

(** * The claims *)

Import Labels Notions LabelFacts.

(** C2.  On [["car1"; "car2"; "dog1"]] the encoder returns the mapping
    [{"car": 0, "dog": 1}] and the labels [[0; 0; 1]].  The encoder is a
    function of its input (hence deterministic), and on every input it
    numbers the base names in increasing alphabetical order: of two keys of
    the returned mapping, the smaller string has the smaller code. *)
Theorem encode_example_alphabetical :
  encode_object_base_labels ["car1"; "car2"; "dog1"]
    = Return ({["car" := 0; "dog" := 1]}, [0; 0; 1])
  ∧ ∀ objs (d : gmap string nat) labels,
      encode_object_base_labels objs = Return (d, labels) →
      ∀ b1 b2 v1 v2,
        d !! b1 = Some v1 → d !! b2 = Some v2 → (v1 < v2 ↔ str_lt b1 b2).
Proof.
  split; [by vm_compute|].
  intros objs d labels (base_names & _ & -> & _)%encode_Return_inv b1 b2 v1 v2 H1 H2.
  pose proof (sorted_set_NoDup base_names) as Hnd.
  apply dict_of_enumerate_lookup in H1, H2; try done.
  eapply StronglySorted_lookup_lt_iff; eauto using sorted_set_StronglySorted.
Qed.

Lemma encode_example_alphabetical_witness :
  0 < 1 ↔ str_lt "banana" "car".
Proof.
  apply (proj2 encode_example_alphabetical ["car7"; "banana4"; "car1"]
           {["banana" := 0; "car" := 1]} [1; 0; 1]); by vm_compute.
Defined.

(** C3 (as stated, refuted).  The base name of ["car_1"] is ["car"], whereas
    removing the trailing digits of ["car_1"] leaves ["car_"]. *)
Lemma base_name_not_strip_digits :
  base_name "car_1" ≠ Return (strip_trailing_digits_spec "car_1").
Proof. by vm_compute. Qed.

(** C3 (amended).  For every object name made of one or more ASCII letters
    followed only by ASCII digits, the base name computed by the encoder is
    that name with its trailing digits removed. *)
Theorem base_name_strips_digits s :
  letters_then_digits s = true →
  base_name s = Return (strip_trailing_digits_spec s).
Proof.
  intros [Heq Hne]%letters_then_digits_strip.
  unfold base_name, re_match_letters. rewrite <-Heq.
  destruct (leading_letters s); done.
Qed.

Lemma base_name_strips_digits_witness :
  base_name "banana42" = Return (strip_trailing_digits_spec "banana42").
Proof. apply base_name_strips_digits. reflexivity. Defined.

(** C9.  Whenever the encoder returns [(label_dict, object_labels)]: the
    label array is as long as the input; with [K] the number of distinct base
    names, every value below [K] is the code of exactly one key and no key has
    a code outside [0..K-1]; and the label at each position is the code of
    that sample's base name, hence below [K]. *)
Theorem encode_labels_invariants objs (d : gmap string nat) labels :
  encode_object_base_labels objs = Return (d, labels) →
  ∃ base_names,
    Forall2 (λ o b, base_name o = Return b) objs base_names ∧
    length labels = length objs ∧
    let K := size (list_to_set base_names : gset string) in
    size d = K ∧
    (∀ v, v < K → ∃ b, d !! b = Some v ∧ ∀ b', d !! b' = Some v → b' = b) ∧
    (∀ b v, d !! b = Some v → v < K) ∧
    (∀ i o, objs !! i = Some o →
       ∃ b v, base_name o = Return b ∧ d !! b = Some v ∧
              labels !! i = Some v ∧ v < K).
Proof.
  intros (base_names & Hbases & -> & Hlabels)%encode_Return_inv.
  exists base_names.
  pose proof (sorted_set_NoDup base_names) as Hnd.
  pose proof (sorted_set_length base_names) as Hlen.
  assert (∀ b v, dict_of_enumerate (sorted_set base_names) !! b = Some v →
                 v < size (list_to_set base_names : gset string)) as Hrange.
  { intros b v Hbv. apply dict_of_enumerate_lookup in Hbv; [|done].
    apply lookup_lt_Some in Hbv. lia. }
  split; [done|].
  split; [apply Forall2_length in Hbases, Hlabels; lia|].
  cbv zeta. split_and!.
  - rewrite <-Hlen, <-size_dom.
    assert (dom (dict_of_enumerate (sorted_set base_names))
            = list_to_set (sorted_set base_names)) as ->.
    { apply set_eq. intros b. rewrite elem_of_dom, elem_of_list_to_set.
      unfold is_Some. split.
      - intros [v Hv]. apply dict_of_enumerate_lookup in Hv; [|done].
        eapply list_elem_of_lookup_2; eauto.
      - intros [i Hi]%list_elem_of_lookup. exists i.
        by apply dict_of_enumerate_lookup. }
    by apply size_list_to_set.
  - intros v Hv. rewrite <-Hlen in Hv.
    apply lookup_lt_is_Some_2 in Hv as [b Hb].
    exists b. split.
    + by apply dict_of_enumerate_lookup.
    + intros b' Hb'. apply dict_of_enumerate_lookup in Hb'; [|done]. congruence.
  - done.
  - intros i o Hi.
    destruct (Forall2_lookup_l _ _ _ _ _ Hbases Hi) as (b & Hb & Hob).
    destruct (Forall2_lookup_l _ _ _ _ _ Hlabels Hb) as (v & Hv & Hbv).
    exists b, v. eauto.
Qed.

Lemma encode_labels_invariants_witness :
  ∃ base_names,
    Forall2 (λ o b, base_name o = Return b) ["car1"; "car2"; "dog1"] base_names ∧
    length [0; 0; 1] = length ["car1"; "car2"; "dog1"] ∧
    let K := size (list_to_set base_names : gset string) in
    size ({["car" := 0; "dog" := 1]} : gmap string nat) = K ∧
    (∀ v, v < K →
       ∃ b, ({["car" := 0; "dog" := 1]} : gmap string nat) !! b = Some v ∧
            ∀ b', ({["car" := 0; "dog" := 1]} : gmap string nat) !! b' = Some v → b' = b) ∧
    (∀ b v, ({["car" := 0; "dog" := 1]} : gmap string nat) !! b = Some v → v < K) ∧
    (∀ i o, ["car1"; "car2"; "dog1"] !! i = Some o →
       ∃ b v, base_name o = Return b ∧
              ({["car" := 0; "dog" := 1]} : gmap string nat) !! b = Some v ∧
              [0; 0; 1] !! i = Some v ∧ v < K).
Proof. apply encode_labels_invariants. by vm_compute. Defined.

(** C10.  If some input string does not begin with an ASCII letter, the
    encoder raises [AttributeError] (the regular expression does not match and
    [.group()] is called on [None]); if every input string begins with an
    ASCII letter, the encoder returns. *)
Theorem encode_raises_iff_no_leading_letter objs :
  (Exists (λ o, starts_with_letter o = false) objs →
     encode_object_base_labels objs = Raise AttributeError)
  ∧ (Forall (λ o, starts_with_letter o = true) objs →
     ∃ d labels, encode_object_base_labels objs = Return (d, labels)).
Proof.
  unfold encode_object_base_labels. split.
  - intros Hex. rewrite (list_comprehension_Raise base_name AttributeError); [done| |].
    + apply Forall_forall. intros o _. apply base_name_cases.
    + eapply Exists_impl; [exact Hex|]. intros o. apply base_name_Raise.
  - intros Hall.
    destruct (list_comprehension_total base_name objs) as [base_names ->].
    { eapply Forall_impl; [exact Hall|]. intros o Ho. eexists. by apply base_name_Return. }
    simpl. destruct (labels_total base_names) as [labels ->]. simpl. eauto.
Qed.

Lemma encode_raises_iff_no_leading_letter_witness :
  encode_object_base_labels ["car1"; "7up"; "dog1"] = Raise AttributeError
  ∧ ∃ d labels, encode_object_base_labels ["car1"; "dog_2"] = Return (d, labels).
Proof.
  split.
  - apply (proj1 (encode_raises_iff_no_leading_letter ["car1"; "7up"; "dog1"])).
    apply Exists_cons_tl, Exists_cons_hd. reflexivity.
  - apply (proj2 (encode_raises_iff_no_leading_letter ["car1"; "dog_2"])).
    repeat constructor.
Defined.

Import Numpy IO Utils IOFacts PCAFacts MetricsFacts VisualizeFacts.

(** C1.  If the cache file holds the pickled pair of transformed matrices,
    [get_pca] returns exactly that pair, whatever [X_train], [X_val] and
    [n_components] are and whatever decomposition routine is available: the
    only effect is one printed line, so nothing is fitted and the file system
    is left as it was. *)
Theorem get_pca_returns_cache svd (X_train X_val : matrix) (n_components : nat)
    (w : World) (cache : gmap string matrix) (a b : matrix) :
  files w !! pkl_file = Some (PickleFile cache) →
  cache !! "X_train_pca" = Some a →
  cache !! "X_val_pca" = Some b →
  get_pca svd X_train X_val n_components w
  = (Return (a, b), log (Stdout ("PCA Pickle file found, variables loaded." ++ nl)) w).
Proof.
  intros Hfile Ha Hb. unfold get_pca.
  rewrite (bind_Return _ _ w true w).
  2:{ unfold os_path_exists. by rewrite (path_exists_file _ _ _ Hfile). }
  unfold print, emit, pickle_load_from, getitem, lift, Labels.dict_getitem.
  unfold mbind, M_bind, bind. simpl. rewrite Hfile, Ha, Hb. done.
Qed.

Lemma get_pca_returns_cache_witness :
  get_pca (λ X, (X, [], X)) [[1%R]] [] 7
    (mkWorld ∅ {[pkl_file := PickleFile {["X_train_pca" := [[2%R; 3%R]]; "X_val_pca" := [[5%R]]]}]} [])
  = (Return ([[2%R; 3%R]], [[5%R]]),
     log (Stdout ("PCA Pickle file found, variables loaded." ++ nl))
       (mkWorld ∅ {[pkl_file := PickleFile {["X_train_pca" := [[2%R; 3%R]]; "X_val_pca" := [[5%R]]]}]} [])).
Proof.
  apply (get_pca_returns_cache _ _ _ _ _
           {["X_train_pca" := [[2%R; 3%R]]; "X_val_pca" := [[5%R]]]}); reflexivity.
Defined.

(** C6.  If something exists at the target path, [download_it_data] returns
    after printing one line: it records no network request and leaves
    directories and files unchanged.  From any world, two calls in succession
    (the first one returning) complete at most one download, and once a call
    has fetched the file the next call makes no request. *)
Theorem download_it_data_idempotent remote (path : string) (w : World) :
  (path_exists (os_path_join path "IT_data.h5") w = true →
     ∃ w', download_it_data remote path w = (Return tt, w') ∧
           dirs w' = dirs w ∧ files w' = files w ∧
           count is_network (trace w') = count is_network (trace w))
  ∧ (∀ w1 r2 w2,
       download_it_data remote path w = (Return tt, w1) →
       download_it_data remote path w1 = (r2, w2) →
       count is_fetch (trace w2) ≤ S (count is_fetch (trace w)) ∧
       (count is_fetch (trace w1) = S (count is_fetch (trace w)) →
        count is_network (trace w2) = count is_network (trace w1))).
Proof.
  split.
  - intros H. eexists. split; [by apply download_present|].
    split_and!; try done. simpl. rewrite count_app. unfold count. simpl. lia.
  - intros w1 r2 w2 H1 H2.
    destruct (path_exists (os_path_join path "IT_data.h5") w) eqn:Hw.
    + rewrite download_present in H1 by done. injection H1 as <-.
      rewrite download_present in H2 by done. injection H2 as <- <-.
      simpl. rewrite !count_app. unfold count. simpl. split; lia.
    + destruct (download_absent remote path w _ w1 Hw H1) as (url & resp & Ht1 & Hstored).
      destruct (path_exists (os_path_join path "IT_data.h5") w1) eqn:Hw1.
      * rewrite download_present in H2 by done. injection H2 as <- <-.
        simpl. rewrite Ht1, !count_app. unfold count. simpl.
        destruct resp; simpl; split; lia.
      * destruct (download_absent remote path w1 r2 w2 Hw1 H2) as (url' & resp' & Ht2 & _).
        rewrite Ht2, Ht1, !count_app.
        destruct resp as [c| |].
        -- by specialize (Hstored c eq_refl eq_refl).
        -- unfold count. simpl. split; [destruct resp'; simpl; lia|lia].
        -- unfold count. simpl. split; [destruct resp'; simpl; lia|lia].
Qed.

Lemma download_it_data_idempotent_witness :
  (∃ w', download_it_data serving_host "data" world_with_data = (Return tt, w') ∧
         dirs w' = dirs world_with_data ∧ files w' = files world_with_data ∧
         count is_network (trace w') = count is_network (trace world_with_data))
  ∧ count is_fetch
      (trace (download_it_data serving_host "data"
                (download_it_data serving_host "data" world_without_data).2).2)
    ≤ S (count is_fetch (trace world_without_data)).
Proof.
  split.
  - apply (proj1 (download_it_data_idempotent serving_host "data" world_with_data)).
    reflexivity.
  - refine (proj1 (proj2 (download_it_data_idempotent serving_host "data" world_without_data)
                     (download_it_data serving_host "data" world_without_data).2
                     (download_it_data serving_host "data"
                        (download_it_data serving_host "data" world_without_data).2).1
                     _ _ _)); reflexivity.
Defined.

(** C5 (as stated, refuted).  An empty training array has shape [(0, 3)] and
    [k = 0] satisfies [k ≤ min(0, 3)], yet [compute_pca] does not return a
    [(0, 0)] array: the input validation of the decomposition raises
    [ValueError]. *)
Lemma compute_pca_rejects_empty_training :
  has_shape [] 0 3 ∧ has_shape [[1; 2; 3]%R] 1 3 ∧ 0 ≤ 0 `min` 3 ∧
  svd_shapes zero_matrix_svd ∧
  ¬ ∃ a b w', compute_pca zero_matrix_svd [] [[1; 2; 3]%R] 0 empty_world
                = (Return (a, b), w') ∧ has_shape a 0 0.
Proof.
  split_and!.
  - by split.
  - split; [done|]. by repeat constructor.
  - simpl. lia.
  - apply zero_matrix_svd_shapes.
  - intros (a & b & w' & H & _). by rewrite compute_pca_empty in H.
Qed.

(** C5 (amended).  For every training matrix of shape [(N, D)] with [N ≥ 1]
    and [D ≥ 1], every validation matrix with at least one row and [D]
    columns, and every [k ≤ min(N, D)], [compute_pca] returns, and the
    transformed training matrix has shape [(N, k)] (the transformed validation
    matrix has [k] columns as well). *)
Theorem compute_pca_training_shape svd (X_train X_val : matrix) (N M D k : nat)
    (w : World) :
  svd_shapes svd →
  has_shape X_train N D → has_shape X_val M D →
  1 ≤ N → 1 ≤ D → 1 ≤ M → k ≤ N `min` D →
  ∃ a b w', compute_pca svd X_train X_val k w = (Return (a, b), w') ∧
            has_shape a N k ∧ has_shape b M k.
Proof.
  intros Hsvd HX HXv HN HD HM Hk.
  destruct (compute_pca_shapes svd X_train X_val N M D k w) as (a & b & H & Ha & Hb);
    try done.
  by exists a, b, (after_compute_pca w).
Qed.

Lemma compute_pca_training_shape_witness :
  ∃ a b w', compute_pca zero_matrix_svd
              [[1; 2]%R; [1; 2]%R; [1; 2]%R] [[4; 6]%R] 2 empty_world
            = (Return (a, b), w') ∧
            has_shape a 3 2 ∧ has_shape b 1 2.
Proof.
  apply (compute_pca_training_shape zero_matrix_svd _ _ 3 1 2 2 empty_world).
  - apply zero_matrix_svd_shapes.
  - split; [reflexivity|]. repeat constructor.
  - split; [reflexivity|]. repeat constructor.
  - lia.
  - lia.
  - lia.
  - simpl. lia.
Defined.

(** C8 (as stated, refuted).  In a world without the directory
    [out/linear_models] the cache file does not exist and [compute_pca]
    returns a pair, but [get_pca] raises [FileNotFoundError] when it opens the
    cache file for writing: it returns nothing and persists nothing. *)
Lemma get_pca_miss_without_directory :
  path_exists pkl_file empty_world = false ∧
  ∃ a b,
    compute_pca zero_matrix_svd [[1; 2]%R; [1; 2]%R] [[4; 6]%R] 1 empty_world
      = (Return (a, b), after_compute_pca empty_world) ∧
    get_pca zero_matrix_svd [[1; 2]%R; [1; 2]%R] [[4; 6]%R] 1 empty_world
      = (Raise FileNotFoundError, after_miss empty_world).
Proof.
  split; [reflexivity|].
  destruct (compute_pca_shapes zero_matrix_svd
              [[1; 2]%R; [1; 2]%R] [[4; 6]%R] 2 1 2 1 empty_world)
    as (a & b & H & _); try lia.
  - apply zero_matrix_svd_shapes.
  - split; [reflexivity|]. repeat constructor.
  - split; [reflexivity|]. repeat constructor.
  - exists a, b. split; [done|].
    by rewrite (get_pca_miss _ _ _ _ _ a b).
Qed.

(** C8 (amended).  When the cache file does not exist, the directory
    [out/linear_models] exists and [compute_pca] returns a pair, [get_pca]
    returns exactly that pair and stores it, under the keys [X_train_pca] and
    [X_val_pca], in the cache file; no other file or directory changes. *)
Theorem get_pca_miss_persists svd (X_train X_val : matrix) (n_components : nat)
    (w w1 : World) (a b : matrix) :
  path_exists pkl_file w = false →
  "out/linear_models" ∈ dirs w →
  compute_pca svd X_train X_val n_components w = (Return (a, b), w1) →
  ∃ w2, get_pca svd X_train X_val n_components w = (Return (a, b), w2) ∧
        files w2 = <[pkl_file := PickleFile {["X_train_pca" := a; "X_val_pca" := b]}]> (files w) ∧
        dirs w2 = dirs w.
Proof.
  intros Hmiss Hdir Hc.
  destruct (compute_pca_inv _ _ _ _ _ _ _ _ Hc) as [-> _].
  rewrite (get_pca_miss _ _ _ _ _ a b) by done.
  unfold parent_exists. rewrite dirname_pkl_file.
  rewrite bool_decide_eq_true_2 by done.
  eexists. split; [done|]. done.
Qed.

Lemma get_pca_miss_persists_witness :
  ∃ a b w2,
    get_pca zero_matrix_svd [[1; 2]%R; [1; 2]%R] [[4; 6]%R] 1 world_with_cache_dir
      = (Return (a, b), w2) ∧
    files w2 = <[pkl_file := PickleFile {["X_train_pca" := a; "X_val_pca" := b]}]>
                 (files world_with_cache_dir) ∧
    dirs w2 = dirs world_with_cache_dir.
Proof.
  destruct (compute_pca_shapes zero_matrix_svd
              [[1; 2]%R; [1; 2]%R] [[4; 6]%R] 2 1 2 1 world_with_cache_dir)
    as (a & b & H & _); try lia.
  - apply zero_matrix_svd_shapes.
  - split; [reflexivity|]. repeat constructor.
  - split; [reflexivity|]. repeat constructor.
  - exists a, b.
    apply (get_pca_miss_persists zero_matrix_svd _ _ 1 world_with_cache_dir
             (after_compute_pca world_with_cache_dir) a b).
    + reflexivity.
    + simpl. set_solver.
    + exact H.
Defined.




(** C7.  For an all-zero channel-first RGB image of height [H] and width
    [W], the de-normalisation [(x * std + mean) * 255] of the transposed
    image is the [H × W] image whose every pixel is the per-channel mean
    [[0.485, 0.456, 0.406]] times 255. *)
Theorem denormalize_zero_image (img : list matrix) (H W : nat) :
  length img = 3 →
  Forall (λ ch, has_shape ch H W) img →
  all_zero img →
  denormalize (transpose_120 img)
  = replicate H (replicate W (map (λ m, (m * 255)%R) normalize_mean)).
Proof.
  intros Hlen Hshape Hzero.
  destruct img as [|c0 [|c1 [|c2 [|]]]]; try done.
  unfold transpose_120.
  assert (length c0 = H) as HH.
  { inversion Hshape as [|? ? [H0 _] _]; subst. done. }
  rewrite HH.
  destruct H as [|H]; [done|].
  assert ((match c0 with row :: _ => length row | [] => 0 end) = W) as HW.
  { inversion Hshape as [|? ? Hc0 _]; subst.
    apply (has_shape_ncols c0 (S H) W Hc0). lia. }
  unfold denormalize.
  change (match [c0; c1; c2] with
          | (row :: _) :: _ => length row
          | _ => 0
          end) with (match c0 with row :: _ => length row | [] => 0 end).
  rewrite HW, !map_map.
  rewrite (map_pointwise _
             (λ _, replicate W (map (λ m, (m * 255)%R) normalize_mean))).
  { apply map_const_seq. }
  intros h _. rewrite map_map.
  rewrite (map_pointwise _ (λ _, map (λ m, (m * 255)%R) normalize_mean)).
  { apply map_const_seq. }
  intros j _.
  rewrite (map_pointwise (λ ch, nth j (nth h ch []) 0%R) (λ _, 0%R) [c0; c1; c2]).
  - apply denormalize_zero_pixel.
  - intros ch Hch. apply nth_zero_channel.
    unfold all_zero in Hzero. rewrite Forall_forall in Hzero. by apply Hzero.
Qed.

Lemma denormalize_zero_image_witness :
  denormalize (transpose_120 [[[0; 0]%R]; [[0; 0]%R]; [[0; 0]%R]])
  = replicate 1 (replicate 2 (map (λ m, (m * 255)%R) normalize_mean)).
Proof.
  apply denormalize_zero_image.
  - reflexivity.
  - repeat constructor.
  - repeat constructor.
Defined.

(** * Further properties of the helpers *)

Import MoreNotions MoreLabelFacts.

(** X1.  The base name is the longest leading run of ASCII letters: the
    encoder's [base_name] returns [b] for a name exactly when [b] is a
    non-empty string of ASCII letters, the name is [b] followed by some rest,
    and that rest does not begin with an ASCII letter. *)
Theorem base_name_is_leading_run (obj b : string) :
  base_name obj = Return b ↔
  b ≠ "" ∧ all_letters b = true ∧
  ∃ rest, obj = b ++ rest ∧ starts_with_letter rest = false.
Proof.
  split.
  - intros [-> Hne]%base_name_inv.
    destruct (leading_letters_split obj) as (rest & Hs & Hall & Hrest).
    split_and!; [done|done|]. by exists rest.
  - intros (Hne & Hall & rest & -> & Hrest).
    unfold base_name, re_match_letters.
    rewrite (leading_letters_app b rest Hall Hrest). by destruct b.
Qed.

Lemma base_name_is_leading_run_witness : base_name "car_alfa" = Return "car".
Proof.
  apply (proj2 (base_name_is_leading_run "car_alfa" "car")).
  split_and!; [discriminate|reflexivity|]. by exists "_alfa".
Defined.

(** X2.  Two samples receive the same integer label exactly when their base
    names are equal. *)
Theorem same_label_iff_same_base objs (d : gmap string nat) labels
    (i j : nat) (oi oj bi bj : string) (li lj : nat) :
  encode_object_base_labels objs = Return (d, labels) →
  objs !! i = Some oi → objs !! j = Some oj →
  base_name oi = Return bi → base_name oj = Return bj →
  labels !! i = Some li → labels !! j = Some lj →
  (li = lj ↔ bi = bj).
Proof.
  intros (base_names & Hbases & -> & Hlabels)%encode_Return_inv Hi Hj Hbi Hbj Hli Hlj.
  pose proof (sorted_set_NoDup base_names) as Hnd.
  destruct (Forall2_lookup_l _ _ _ _ _ Hbases Hi) as (bi' & Hbi' & Heqi).
  destruct (Forall2_lookup_l _ _ _ _ _ Hbases Hj) as (bj' & Hbj' & Heqj).
  simpl in Heqi, Heqj.
  assert (bi' = bi) as -> by congruence. assert (bj' = bj) as -> by congruence.
  destruct (Forall2_lookup_l _ _ _ _ _ Hlabels Hbi') as (li' & Hli' & Hdi).
  destruct (Forall2_lookup_l _ _ _ _ _ Hlabels Hbj') as (lj' & Hlj' & Hdj).
  simpl in Hdi, Hdj.
  assert (li' = li) as -> by congruence. assert (lj' = lj) as -> by congruence.
  split.
  - intros ->. apply dict_of_enumerate_lookup in Hdi, Hdj; try done. congruence.
  - intros ->. congruence.
Qed.

Lemma same_label_iff_same_base_witness : 1 = 1 ↔ "car" = "car".
Proof.
  apply (same_label_iff_same_base ["dog1"; "car1"; "apple3"; "car_alfa"]
           {["apple" := 0; "car" := 1; "dog" := 2]} [2; 1; 0; 1]
           1 3 "car1" "car_alfa" "car" "car" 1 1); by vm_compute.
Defined.

(** X3.  The mapping depends only on the set of base names of the input, not
    on the order of the samples or on how often a base name occurs. *)
Theorem label_dict_depends_on_base_set objs1 objs2
    (d1 d2 : gmap string nat) labels1 labels2 :
  encode_object_base_labels objs1 = Return (d1, labels1) →
  encode_object_base_labels objs2 = Return (d2, labels2) →
  (∀ b, (∃ o, o ∈ objs1 ∧ base_name o = Return b) ↔
        (∃ o, o ∈ objs2 ∧ base_name o = Return b)) →
  d1 = d2.
Proof.
  intros (bases1 & Hb1 & -> & _)%encode_Return_inv
         (bases2 & Hb2 & -> & _)%encode_Return_inv Hsame.
  unfold sorted_set.
  assert ((list_to_set bases1 : gset string) = list_to_set bases2) as ->; [|done].
  apply set_eq. intros b. rewrite !elem_of_list_to_set.
  rewrite (base_names_elem_of _ _ b Hb1), (base_names_elem_of _ _ b Hb2). apply Hsame.
Qed.

Lemma label_dict_depends_on_base_set_witness :
  ({["car" := 0; "dog" := 1]} : gmap string nat) = {["car" := 0; "dog" := 1]}.
Proof.
  apply (label_dict_depends_on_base_set ["car1"; "dog2"] ["dog7"; "car3"; "car9"]
           _ _ [0; 1] [1; 0; 0]); [by vm_compute|by vm_compute|].
  intros b. split.
  - intros (o & Ho & Hb). repeat (apply elem_of_cons in Ho as [->|Ho]);
      [| |by apply elem_of_nil in Ho]; vm_compute in Hb; injection Hb as <-.
    + exists "car3". split; [set_solver|done].
    + exists "dog7". split; [set_solver|done].
  - intros (o & Ho & Hb). repeat (apply elem_of_cons in Ho as [->|Ho]);
      [| | |by apply elem_of_nil in Ho]; vm_compute in Hb; injection Hb as <-.
    + exists "dog2". split; [set_solver|done].
    + exists "car1". split; [set_solver|done].
    + exists "car1". split; [set_solver|done].
Defined.

(** X4.  Encoding is stable: applying the encoder to the base names of an
    input returns the same mapping and the same labels as for the input. *)
Theorem encode_base_names_again objs (d : gmap string nat) labels :
  encode_object_base_labels objs = Return (d, labels) →
  ∃ base_names,
    Forall2 (λ o b, base_name o = Return b) objs base_names ∧
    encode_object_base_labels base_names = Return (d, labels).
Proof.
  intros Henc. pose proof Henc as (base_names & Hbases & -> & Hlabels)%encode_Return_inv.
  exists base_names. split; [done|].
  assert (list_comprehension base_name base_names = Return base_names) as Hagain.
  { apply list_comprehension_Return. clear -Hbases.
    induction Hbases as [|o b objs base_names Hob _ IH]; constructor; [|done].
    apply base_name_is_leading_run_aux in Hob as [Hne Hall].
    by apply base_name_of_letters. }
  unfold encode_object_base_labels in *. rewrite Hagain. simpl.
  apply list_comprehension_Return in Hbases. rewrite Hbases in Henc. done.
Qed.

Lemma encode_base_names_again_witness :
  ∃ base_names,
    Forall2 (λ o b, base_name o = Return b) ["car1"; "dog_2"; "car7"] base_names ∧
    encode_object_base_labels base_names
    = Return ({["car" := 0; "dog" := 1]}, [0; 1; 0]).
Proof. apply encode_base_names_again. by vm_compute. Defined.

(** X5.  The only error the encoder can raise is [AttributeError], and it
    raises it only when some input string does not begin with an ASCII
    letter; in particular the lookup [label_dict[base]] never fails. *)
Theorem encode_only_attribute_error objs (e : exn) :
  encode_object_base_labels objs = Raise e →
  e = AttributeError ∧ Exists (λ o, starts_with_letter o = false) objs.
Proof. apply encode_Raise_inv. Qed.

Lemma encode_only_attribute_error_witness :
  AttributeError = AttributeError ∧
  Exists (λ o, starts_with_letter o = false) ["car1"; "_x"].
Proof. apply encode_only_attribute_error. by vm_compute. Defined.

Import Loading MoreIOFacts.

(** X7.  A trailing slash on the data directory makes no difference:
    [download_it_data(path + "/")] behaves exactly as
    [download_it_data(path)] for a non-empty [path] that does not itself end
    in a slash. *)
Theorem download_it_data_trailing_slash remote (path : string) (w : World) :
  path ≠ "" → ends_with_slash path = false →
  download_it_data remote (path ++ "/") w = download_it_data remote path w.
Proof.
  intros Hne Hs. rewrite !download_it_data_run.
  by rewrite (os_path_join_trailing_slash path "IT_data.h5" Hne Hs).
Qed.

Lemma download_it_data_trailing_slash_witness :
  download_it_data serving_host ("data" ++ "/") world_without_data
  = download_it_data serving_host "data" world_without_data.
Proof. apply download_it_data_trailing_slash; [discriminate|reflexivity]. Defined.

(** X9.  If the container lacks any one of the eight datasets
    [stimulus_train], [spikes_train], [object_train], [stimulus_val],
    [spikes_val], [object_val], [stimulus_test], [object_test],
    [load_it_data] raises [KeyError]; the world is left as it was. *)
Theorem load_it_data_missing_dataset h5py_File (path : string) (w : World)
    (f : file) (d : gmap string dataset) (k : string) :
  files w !! os_path_join path "IT_data.h5" = Some f →
  h5py_File f = Return d →
  k ∈ it_data_keys → d !! k = None →
  load_it_data h5py_File path w = (Raise KeyError, w).
Proof.
  intros Hf Hd Hk Hnone. rewrite load_it_data_run.
  unfold open_h5. rewrite Hf, Hd.
  unfold it_data_keys in Hk.
  repeat (apply elem_of_cons in Hk as [->|Hk]);
    [..|by apply elem_of_nil in Hk];
    rewrite Hnone;
    repeat (match goal with
            | |- context [d !! ?k] => destruct (d !! k)
            end); done.
Qed.

(** X10.  If the container holds the eight datasets and the three object
    datasets are arrays of byte strings, [load_it_data] returns the arrays as
    stored and the object names as the latin-1 decodings of the stored byte
    strings: there are as many names as stored strings, and encoding the
    names back gives the stored bytes.  The world is left as it was. *)
Theorem load_it_data_decodes h5py_File (path : string) (w : World) (f : file)
    (d : gmap string dataset) (st kt sv kv ss : dataset)
    (ot ov os : list (list Byte.byte)) :
  files w !! os_path_join path "IT_data.h5" = Some f →
  h5py_File f = Return d →
  d !! "stimulus_train" = Some st → d !! "spikes_train" = Some kt →
  d !! "object_train" = Some (ByteStrings ot) →
  d !! "stimulus_val" = Some sv → d !! "spikes_val" = Some kv →
  d !! "object_val" = Some (ByteStrings ov) →
  d !! "stimulus_test" = Some ss →
  d !! "object_test" = Some (ByteStrings os) →
  ∃ data, load_it_data h5py_File path w = (Return data, w) ∧
    stimulus_train data = st ∧ stimulus_val data = sv ∧ stimulus_test data = ss ∧
    spikes_train data = kt ∧ spikes_val data = kv ∧
    length (objects_train data) = length ot ∧
    length (objects_val data) = length ov ∧
    length (objects_test data) = length os ∧
    map list_byte_of_string (objects_train data) = ot ∧
    map list_byte_of_string (objects_val data) = ov ∧
    map list_byte_of_string (objects_test data) = os.
Proof.
  intros Hf Hd H1 H2 H3 H4 H5 H6 H7 H8. rewrite load_it_data_run.
  unfold open_h5. rewrite Hf, Hd, H1, H2, H3, H4, H5, H6, H7, H8.
  rewrite !decode_objects_bytes.
  eexists. split; [reflexivity|]. simpl.
  rewrite !length_map, !encode_decode_latin1. done.
Qed.

Lemma load_it_data_missing_dataset_witness :
  load_it_data (λ _, Return container_without_spikes) "data" world_with_data
  = (Raise KeyError, world_with_data).
Proof.
  apply (load_it_data_missing_dataset _ _ _ (DataFile "h5") container_without_spikes
           "spikes_train"); [by vm_compute|by vm_compute| |by vm_compute].
  apply list_elem_of_further, list_elem_of_here.
Defined.

Lemma load_it_data_decodes_witness :
  ∃ data, load_it_data sample_reader "data" world_with_data
          = (Return data, world_with_data) ∧
    stimulus_train data = Images [] ∧ stimulus_val data = Images [] ∧
    stimulus_test data = Images [] ∧
    spikes_train data = Rates [] ∧ spikes_val data = Rates [] ∧
    length (objects_train data) = length [[Byte.x63; Byte.x61; Byte.x72; Byte.x31]] ∧
    length (objects_val data) = length (@nil (list Byte.byte)) ∧
    length (objects_test data) = length (@nil (list Byte.byte)) ∧
    map list_byte_of_string (objects_train data)
      = [[Byte.x63; Byte.x61; Byte.x72; Byte.x31]] ∧
    map list_byte_of_string (objects_val data) = [] ∧
    map list_byte_of_string (objects_test data) = [].
Proof.
  apply (load_it_data_decodes sample_reader "data" world_with_data (DataFile "h5")
           sample_container); by vm_compute.
Defined.

(** X11.  With nothing at [<path>/IT_data.h5], [load_it_data] raises
    [FileNotFoundError].  After a call of [download_it_data] that fetched a
    well-formed container, [load_it_data] on the same [path] returns, and
    the object names are the latin-1 decodings of the byte strings in the
    served container. *)
Theorem load_it_data_after_download remote h5py_File (path : string) (w : World)
    (c : string) (d : gmap string dataset) (st kt sv kv ss : dataset)
    (ot ov os : list (list Byte.byte)) :
  path_exists (os_path_join path "IT_data.h5") w = false →
  parent_exists (os_path_join path "IT_data.h5") w = true →
  remote (trace w) it_data_url = Fetched c →
  h5py_File (DataFile c) = Return d →
  d !! "stimulus_train" = Some st → d !! "spikes_train" = Some kt →
  d !! "object_train" = Some (ByteStrings ot) →
  d !! "stimulus_val" = Some sv → d !! "spikes_val" = Some kv →
  d !! "object_val" = Some (ByteStrings ov) →
  d !! "stimulus_test" = Some ss →
  d !! "object_test" = Some (ByteStrings os) →
  load_it_data h5py_File path w = (Raise FileNotFoundError, w) ∧
  ∃ w' data,
    download_it_data remote path w = (Return tt, w') ∧
    load_it_data h5py_File path w' = (Return data, w') ∧
    objects_train data = map decode_latin1 ot ∧
    objects_val data = map decode_latin1 ov ∧
    objects_test data = map decode_latin1 os.
Proof.
  intros Habs Hdir Hresp Hd H1 H2 H3 H4 H5 H6 H7 H8. split.
  - rewrite load_it_data_run. unfold open_h5.
    apply path_exists_false in Habs as [-> Hnd].
    by rewrite bool_decide_eq_false_2.
  - rewrite download_it_data_run, Habs, Hresp, Hdir. eexists _, _. split; [done|].
    rewrite load_it_data_run. unfold open_h5. simpl. rewrite lookup_insert_eq.
    rewrite Hd, H1, H2, H3, H4, H5, H6, H7, H8, !decode_objects_bytes. done.
Qed.

Lemma load_it_data_after_download_witness :
  load_it_data sample_reader "data" world_without_data
    = (Raise FileNotFoundError, world_without_data) ∧
  ∃ w' data,
    download_it_data serving_host "data" world_without_data = (Return tt, w') ∧
    load_it_data sample_reader "data" w' = (Return data, w') ∧
    objects_train data = map decode_latin1 [[Byte.x63; Byte.x61; Byte.x72; Byte.x31]] ∧
    objects_val data = map decode_latin1 [] ∧
    objects_test data = map decode_latin1 [].
Proof.
  apply (load_it_data_after_download serving_host sample_reader "data"
           world_without_data "h5" sample_container
           (Images []) (Rates []) (Images []) (Rates []) (Images []));
    by vm_compute.
Defined.

(** X12.  [print_data_info] returns exactly when the stimulus array has rank
    four and the spike array rank two.  It then prints four lines and changes
    nothing else; otherwise it raises [ValueError] and prints nothing. *)
Theorem print_data_info_ranks (stimulus spikes : ndarray) (w : World) :
  (length (shape stimulus) = 4 ∧ length (shape spikes) = 2 →
     ∃ l1 l2 l3 l4,
       print_data_info stimulus spikes w
       = (Return tt,
          mkWorld (dirs w) (files w)
            (trace w ++ [Stdout l1; Stdout l2; Stdout l3; Stdout l4])))
  ∧ (length (shape stimulus) ≠ 4 ∨ length (shape spikes) ≠ 2 →
     print_data_info stimulus spikes w = (Raise ValueError, w)).
Proof.
  unfold print_data_info. split.
  - intros [H4 H2].
    destruct (shape stimulus) as [|n [|c [|h [|wd [|]]]]]; try done.
    destruct (shape spikes) as [|b [|m [|]]]; try done.
    run_M. unfold emit, log. simpl. eexists _, _, _, _.
    do 2 f_equal. rewrite <-!app_assoc. reflexivity.
  - intros Hbad.
    destruct (shape stimulus) as [|n [|c [|h [|wd [|]]]]]; try done.
    destruct (shape spikes) as [|b [|m [|]]]; try done.
    simpl in Hbad. lia.
Qed.

Lemma print_data_info_ranks_witness :
  (∃ l1 l2 l3 l4,
     print_data_info (mkArray [2; 3; 4; 4] []) (mkArray [2; 5] []) empty_world
     = (Return tt,
        mkWorld (dirs empty_world) (files empty_world)
          (trace empty_world ++ [Stdout l1; Stdout l2; Stdout l3; Stdout l4])))
  ∧ print_data_info (mkArray [2; 3; 4] []) (mkArray [2; 5] []) empty_world
    = (Raise ValueError, empty_world).
Proof.
  split.
  - apply (proj1 (print_data_info_ranks (mkArray [2; 3; 4; 4] []) (mkArray [2; 5] [])
                    empty_world)). by split.
  - apply (proj2 (print_data_info_ranks (mkArray [2; 3; 4] []) (mkArray [2; 5] [])
                    empty_world)). left. simpl. lia.
Defined.

(** X13.  After any call of [get_pca] that returned a pair, the next call
    returns that same pair from the cache, whatever matrices, component count
    and decomposition routine it is given; it prints the cache-hit line and
    computes nothing. *)
Theorem get_pca_second_call_reuses_cache svd svd' (X_train X_val X_train' X_val' : matrix)
    (n_components n_components' : nat) (w w1 : World) (a b : matrix) :
  get_pca svd X_train X_val n_components w = (Return (a, b), w1) →
  get_pca svd' X_train' X_val' n_components' w1
  = (Return (a, b), log (Stdout cache_hit_message) w1).
Proof.
  intros (cache & Hf & Ha & Hb)%get_pca_Return_inv.
  by apply (get_pca_hit _ _ _ _ _ cache).
Qed.

Lemma get_pca_second_call_reuses_cache_witness :
  ∃ a b w1,
    get_pca zero_matrix_svd [[1; 2]%R; [1; 2]%R] [[4; 6]%R] 1 world_with_cache_dir
      = (Return (a, b), w1) ∧
    get_pca (λ X, (X, [], X)) [[9%R]] [] 5 w1
      = (Return (a, b), log (Stdout cache_hit_message) w1).
Proof.
  destruct (compute_pca_shapes zero_matrix_svd
              [[1; 2]%R; [1; 2]%R] [[4; 6]%R] 2 1 2 1 world_with_cache_dir)
    as (a & b & H & _); try lia.
  - apply zero_matrix_svd_shapes.
  - split; [reflexivity|]. repeat constructor.
  - split; [reflexivity|]. repeat constructor.
  - exists a, b,
      (get_pca zero_matrix_svd [[1; 2]%R; [1; 2]%R] [[4; 6]%R] 1 world_with_cache_dir).2.
    assert (get_pca zero_matrix_svd [[1; 2]%R; [1; 2]%R] [[4; 6]%R] 1 world_with_cache_dir
            = (Return (a, b),
               (get_pca zero_matrix_svd [[1; 2]%R; [1; 2]%R] [[4; 6]%R] 1
                  world_with_cache_dir).2)) as Hfirst.
    { rewrite (get_pca_miss _ _ _ _ _ a b) by done. reflexivity. }
    split; [exact Hfirst|].
    exact (get_pca_second_call_reuses_cache _ _ _ _ _ _ _ _ _ _ _ _ Hfirst).
Defined.

(** X14.  Whatever happens, [get_pca] creates no directory and changes no
    file other than the cache file [out/linear_models/pca_model.pkl]. *)
Theorem get_pca_touches_only_cache svd (X_train X_val : matrix) (n_components : nat)
    (w w' : World) (r : result (matrix * matrix)) :
  get_pca svd X_train X_val n_components w = (r, w') →
  dirs w' = dirs w ∧ ∀ p, p ≠ pkl_file → files w' !! p = files w !! p.
Proof. apply get_pca_frame_files. Qed.

Lemma get_pca_touches_only_cache_witness :
  dirs (get_pca zero_matrix_svd [] [] 0 world_with_data).2 = dirs world_with_data ∧
  ∀ p, p ≠ pkl_file →
       files (get_pca zero_matrix_svd [] [] 0 world_with_data).2 !! p
       = files world_with_data !! p.
Proof.
  apply (get_pca_touches_only_cache zero_matrix_svd [] [] 0 world_with_data _
           (get_pca zero_matrix_svd [] [] 0 world_with_data).1).
  reflexivity.
Defined.

(** X15.  If the cache file holds a pickled dictionary that lacks
    [X_train_pca] or [X_val_pca], [get_pca] raises [KeyError] after printing
    the cache-hit line; it does not fall back to computing the
    decomposition, and the file system is unchanged. *)
Theorem get_pca_incomplete_cache svd (X_train X_val : matrix) (n_components : nat)
    (w : World) (cache : gmap string matrix) :
  files w !! pkl_file = Some (PickleFile cache) →
  cache !! "X_train_pca" = None ∨ cache !! "X_val_pca" = None →
  get_pca svd X_train X_val n_components w
  = (Raise KeyError, log (Stdout cache_hit_message) w).
Proof.
  intros Hf Hmissing. rewrite get_pca_run, (path_exists_file _ _ _ Hf).
  unfold pickle_load_from. simpl. rewrite Hf.
  destruct Hmissing as [->| ->]; [done|]. by destruct (cache !! "X_train_pca").
Qed.

Lemma get_pca_incomplete_cache_witness :
  get_pca zero_matrix_svd [[1%R]] [[1%R]] 1
    (mkWorld ∅ {[pkl_file := PickleFile {["X_train_pca" := [[2%R]]]}]} [])
  = (Raise KeyError,
     log (Stdout cache_hit_message)
       (mkWorld ∅ {[pkl_file := PickleFile {["X_train_pca" := [[2%R]]]}]} [])).
Proof.
  apply (get_pca_incomplete_cache _ _ _ _ _ {["X_train_pca" := [[2%R]]]});
    [reflexivity|]. right. reflexivity.
Defined.

(** X16.  Asking [compute_pca] for more components than [min(N, D)] raises
    [ValueError] after the start message; the closing ["done."] is never
    printed and no file changes. *)
Theorem compute_pca_too_many_components svd (X_train X_val : matrix) (N D k : nat)
    (w : World) :
  has_shape X_train N D → 1 ≤ N → 1 ≤ D → N `min` D < k →
  compute_pca svd X_train X_val k w
  = (Raise ValueError, log (Stdout "Computing PCA... ") w).
Proof.
  intros HX HN HD Hk. rewrite compute_pca_run.
  by rewrite (fit_transform_too_many svd X_train N D k).
Qed.

Lemma compute_pca_too_many_components_witness :
  compute_pca zero_matrix_svd [[1; 2]%R; [3; 4]%R] [[4; 6]%R] 3 empty_world
  = (Raise ValueError, log (Stdout "Computing PCA... ") empty_world).
Proof.
  apply (compute_pca_too_many_components _ _ _ 2 2).
  - split; [reflexivity|]. repeat constructor.
  - lia.
  - lia.
  - simpl. lia.
Defined.

(** X17.  If the validation matrix does not have as many columns as the
    training matrix, [compute_pca] raises [ValueError] (the decomposition is
    fitted, the validation data rejected) and returns nothing. *)
Theorem compute_pca_validation_width svd (X_train X_val : matrix) (N M D D' k : nat)
    (w : World) :
  svd_shapes svd →
  has_shape X_train N D → has_shape X_val M D' →
  1 ≤ N → 1 ≤ D → 1 ≤ M → 1 ≤ D' → D' ≠ D → k ≤ N `min` D →
  compute_pca svd X_train X_val k w
  = (Raise ValueError, log (Stdout "Computing PCA... ") w).
Proof.
  intros Hsvd HX HXv HN HD HM HD' Hne Hk. rewrite compute_pca_run.
  destruct (fit_transform_shape svd Hsvd X_train N D k HX HN HD Hk)
    as (pca & T & -> & _ & Hfeat & _).
  rewrite (transform_wrong_width pca X_val M D'); [done..|]. congruence.
Qed.

Lemma compute_pca_validation_width_witness :
  compute_pca zero_matrix_svd [[1; 2]%R; [3; 4]%R] [[4; 6; 8]%R] 1 empty_world
  = (Raise ValueError, log (Stdout "Computing PCA... ") empty_world).
Proof.
  apply (compute_pca_validation_width _ _ _ 2 1 2 3).
  - apply zero_matrix_svd_shapes.
  - split; [reflexivity|]. repeat constructor.
  - split; [reflexivity|]. repeat constructor.
  - lia.
  - lia.
  - lia.
  - lia.
  - lia.
  - simpl. lia.
Defined.

(** X18.  On a cache miss with an invalid request (more components than
    [min(N, D)]), [get_pca] raises the decomposition's [ValueError] and
    writes no cache file, so a later call misses again. *)
Theorem get_pca_miss_invalid_request svd (X_train X_val : matrix) (N D k : nat)
    (w : World) :
  path_exists pkl_file w = false →
  has_shape X_train N D → 1 ≤ N → 1 ≤ D → N `min` D < k →
  ∃ w', get_pca svd X_train X_val k w = (Raise ValueError, w') ∧
        files w' = files w ∧ dirs w' = dirs w ∧
        path_exists pkl_file w' = false.
Proof.
  intros Hmiss HX HN HD Hk. rewrite get_pca_run, Hmiss.
  rewrite compute_pca_run, (fit_transform_too_many svd X_train N D k) by done.
  eexists. split; [done|]. by split_and!.
Qed.

Lemma get_pca_miss_invalid_request_witness :
  ∃ w', get_pca zero_matrix_svd [[1; 2]%R; [3; 4]%R] [[4; 6]%R] 3 world_with_cache_dir
        = (Raise ValueError, w') ∧
        files w' = files world_with_cache_dir ∧ dirs w' = dirs world_with_cache_dir ∧
        path_exists pkl_file w' = false.
Proof.
  apply (get_pca_miss_invalid_request _ _ _ 2 2).
  - reflexivity.
  - split; [reflexivity|]. repeat constructor.
  - lia.
  - lia.
  - simpl. lia.
Defined.

Import MoreVisualizeFacts.

(** X19.  An invalid request fails before anything is drawn: an index beyond
    the stimulus array raises [IndexError], and an image whose channel count
    is neither 3 nor 1 raises [ValueError]; in both cases no figure is opened
    and the world is unchanged. *)
Theorem visualize_img_rejects_early (stimulus : list (list matrix))
    (objects : list string) (stim_idx : nat) (w : World) :
  (stimulus !! stim_idx = None →
     visualize_img stimulus objects stim_idx w = (Raise IndexError, w))
  ∧ (∀ img, stimulus !! stim_idx = Some img → length img ≠ 3 → length img ≠ 1 →
     visualize_img stimulus objects stim_idx w = (Raise ValueError, w)).
Proof.
  split.
  - intros H. by rewrite visualize_img_run, H.
  - intros img H H3 H1. rewrite visualize_img_run, H.
    by rewrite (proj2 (Nat.eqb_neq _ _) H3), (proj2 (Nat.eqb_neq _ _) H1).
Qed.

Lemma visualize_img_rejects_early_witness :
  visualize_img [] ["car1"] 0 empty_world = (Raise IndexError, empty_world)
  ∧ visualize_img [[[[0%R]]; [[0%R]]]] ["car1"] 0 empty_world
    = (Raise ValueError, empty_world).
Proof.
  split.
  - by apply (proj1 (visualize_img_rejects_early [] ["car1"] 0 empty_world)).
  - apply (proj2 (visualize_img_rejects_early [[[[0%R]]; [[0%R]]]] ["car1"] 0 empty_world)
             [[[0%R]]; [[0%R]]]); [reflexivity|simpl; lia|simpl; lia].
Defined.

(** X20.  For a valid index whose image has 3 (or 1) channels and whose
    label exists, [visualize_img] returns after opening a figure, drawing the
    de-normalised image, setting the label as title and showing the figure,
    in this order.  Every drawn pixel has three channel values, each in
    0..255, and no file or directory changes. *)
Theorem visualize_img_draws (stimulus : list (list matrix)) (objects : list string)
    (stim_idx : nat) (w : World) (img : list matrix) (name : string) :
  stimulus !! stim_idx = Some img →
  length img = 3 ∨ length img = 1 →
  objects !! stim_idx = Some name →
  visualize_img stimulus objects stim_idx w
  = (Return tt,
     mkWorld (dirs w) (files w)
       (trace w ++ [NewFigure; ImShow (shown_pixels img); Title name; Show]))
  ∧ Forall (Forall (λ px, length px = 3 ∧ Forall (λ v, (0 ≤ v < 256)%Z) px))
      (shown_pixels img).
Proof.
  intros Hs HC Ho. split.
  - rewrite visualize_img_run, Hs, Ho.
    by destruct HC as [->| ->].
  - pose proof (denormalize_pixel_length _ _ HC (transpose_120_pixel_length img)) as Hlen.
    unfold shown_pixels. apply Forall_map.
    eapply Forall_impl; [exact Hlen|]. intros row Hrow. simpl in *.
    apply Forall_map. eapply Forall_impl; [exact Hrow|]. intros px Hpx. simpl in *.
    split; [by rewrite length_map|].
    apply Forall_map, Forall_forall. intros x _. apply astype_uint8_range.
Qed.

Lemma visualize_img_draws_witness :
  visualize_img [[[[0%R]]; [[0%R]]; [[0%R]]]] ["car1"] 0 empty_world
  = (Return tt,
     mkWorld (dirs empty_world) (files empty_world)
       (trace empty_world ++
        [NewFigure; ImShow (shown_pixels [[[0%R]]; [[0%R]]; [[0%R]]]);
         Title "car1"; Show]))
  ∧ Forall (Forall (λ px, length px = 3 ∧ Forall (λ v, (0 ≤ v < 256)%Z) px))
      (shown_pixels [[[0%R]]; [[0%R]]; [[0%R]]]).
Proof.
  apply visualize_img_draws; [reflexivity|by left|reflexivity].
Defined.

(** X21.  If the index is valid for the stimulus array but the label list is
    too short, [visualize_img] raises [IndexError] only after the figure has
    been opened and the image drawn; the figure is never given a title nor
    shown. *)
Theorem visualize_img_missing_label (stimulus : list (list matrix))
    (objects : list string) (stim_idx : nat) (w : World) (img : list matrix) :
  stimulus !! stim_idx = Some img →
  length img = 3 ∨ length img = 1 →
  objects !! stim_idx = None →
  visualize_img stimulus objects stim_idx w
  = (Raise IndexError,
     mkWorld (dirs w) (files w) (trace w ++ [NewFigure; ImShow (shown_pixels img)])).
Proof.
  intros Hs HC Ho. rewrite visualize_img_run, Hs, Ho.
  by destruct HC as [->| ->].
Qed.

Lemma visualize_img_missing_label_witness :
  visualize_img [[[[0%R]]; [[0%R]]; [[0%R]]]] [] 0 empty_world
  = (Raise IndexError,
     mkWorld (dirs empty_world) (files empty_world)
       (trace empty_world ++
        [NewFigure; ImShow (shown_pixels [[[0%R]]; [[0%R]]; [[0%R]]])])).
Proof.
  apply visualize_img_missing_label; [reflexivity|by left|reflexivity].
Defined.

(** X23.  A single-channel image is broadcast over the three normalisation
    constants: its value [x] at a position becomes the pixel
    [[(x * 0.229 + 0.485) * 255, (x * 0.224 + 0.456) * 255,
      (x * 0.225 + 0.406) * 255]]. *)
Theorem denormalize_single_channel (ch : matrix) (H W : nat) :
  has_shape ch H W →
  denormalize (transpose_120 [ch])
  = map (map (λ x, [((x * 0.229 + 0.485) * 255)%R;
                     ((x * 0.224 + 0.456) * 255)%R;
                     ((x * 0.225 + 0.406) * 255)%R])) ch.
Proof.
  intros Hch. rewrite (transpose_120_single ch H W Hch).
  unfold denormalize. rewrite map_map.
  apply map_pointwise. intros row _. rewrite map_map.
  apply map_pointwise. intros x _. reflexivity.
Qed.

Lemma denormalize_single_channel_witness :
  denormalize (transpose_120 [[[1; 2]%R; [3; 4]%R]])
  = map (map (λ x, [((x * 0.229 + 0.485) * 255)%R;
                     ((x * 0.224 + 0.456) * 255)%R;
                     ((x * 0.225 + 0.406) * 255)%R])) [[1; 2]%R; [3; 4]%R].
Proof.
  apply (denormalize_single_channel _ 2 2). split; [reflexivity|]. repeat constructor.
Defined.

Import MoreMetricsFacts.

(** X24.  For an array [y] with at least two rows and one column,
    [compute_metrics(y, y)] also returns MAPE = 0 and an explained variance
    of 1 for every output and on average; when some column is constant, the
    average correlation is NaN. *)
Theorem compute_metrics_perfect_prediction_rest (y : matrix) (N D : nat) (w : World) :
  has_shape y N D → 2 ≤ N → 1 ≤ D →
  ∃ m w', compute_metrics y y w = (Return m, w') ∧
          mape m = 0%R ∧ ev m = replicate D 1%R ∧ ev_avg m = 1%R ∧
          ((∃ i, i < D ∧ Scipy.is_constant (column i y) = true) →
             corr_avg m = NaN).
Proof.
  intros Hy HN HD. rewrite compute_metrics_run.
  rewrite (check_reg_targets_self y N D) by (done || lia).
  rewrite (correlations_self y N D) by done.
  eexists _, _. split; [reflexivity|].
  assert (ncols y = D) as Hcols by (apply (has_shape_ncols y N D Hy); lia).
  assert (columns y ≠ []) as Hne by (apply (columns_nonempty y N D Hy); lia).
  unfold metrics_values. simpl. rewrite !zip_with_same.
  split_and!.
  - rewrite (map_pointwise _ (λ _, 0%R)) by (intros; apply mape_column_self).
    apply mean_zero.
  - rewrite (map_pointwise _ (λ _, 1%R)) by (intros; apply ev_column_self).
    unfold columns. rewrite map_map, Hcols. apply (map_const_seq 1%R 0 D).
  - rewrite (map_pointwise _ (λ _, 1%R)) by (intros; apply ev_column_self).
    by apply mean_const.
  - intros (i & Hi & Hconst). apply xmean_NaN.
    apply list_elem_of_In, in_map_iff. exists i. split.
    + unfold self_correlation. by rewrite Hconst.
    + apply in_seq. lia.
Qed.

Lemma compute_metrics_perfect_prediction_rest_witness :
  ∃ m w', compute_metrics [[1; 2]%R; [1; 4]%R; [1; 7]%R]
            [[1; 2]%R; [1; 4]%R; [1; 7]%R] empty_world
            = (Return m, w') ∧
          mape m = 0%R ∧ ev m = replicate 2 1%R ∧ ev_avg m = 1%R ∧
          ((∃ i, i < 2 ∧
                 Scipy.is_constant (column i [[1; 2]%R; [1; 4]%R; [1; 7]%R]) = true) →
             corr_avg m = NaN).
Proof.
  apply (compute_metrics_perfect_prediction_rest _ 3 2 empty_world).
  - split; [reflexivity|]. repeat constructor.
  - lia.
  - lia.
Defined.

(** X25.  For two rectangular arrays, [compute_metrics] returns exactly when
    they have the same shape with at least two rows and at least one column
    (a constant column then yields a NaN correlation, not an error); in every
    other case it raises [ValueError] and prints nothing. *)
Theorem compute_metrics_domain (y_true y_pred : matrix) (N1 D1 N2 D2 : nat) (w : World) :
  has_shape y_true N1 D1 → has_shape y_pred N2 D2 →
  (N1 = N2 ∧ D1 = D2 ∧ 2 ≤ N1 ∧ 1 ≤ D1 →
     ∃ m, compute_metrics y_true y_pred w = (Return m, log (scores_line m) w))
  ∧ (¬ (N1 = N2 ∧ D1 = D2 ∧ 2 ≤ N1 ∧ 1 ≤ D1) →
     compute_metrics y_true y_pred w = (Raise ValueError, w)).
Proof.
  intros H1 H2. split.
  - intros (<- & <- & HN & HD). by apply (compute_metrics_returns _ _ N1 D1).
  - intros Hbad. rewrite compute_metrics_run.
    destruct (Sklearn.check_reg_targets y_true y_pred) as [[]|e] eqn:Hc.
    2:{ by apply check_reg_targets_Raise in Hc as ->. }
    apply check_reg_targets_inv in Hc as (HN & HD & HN2 & HD2).
    assert (N1 = N2) as <-.
    { destruct H1 as [<- _], H2 as [<- _]. by unfold nrows in HN2. }
    assert (0 < N1) as HN1 by (destruct H1 as [<- _]; by unfold nrows in HN).
    assert (D1 = D2) as <-.
    { rewrite <-(has_shape_ncols _ _ _ H1 HN1), <-(has_shape_ncols _ _ _ H2 HN1). done. }
    assert (1 ≤ D1) as HD1 by (rewrite <-(has_shape_ncols _ _ _ H1 HN1); lia).
    assert (N1 = 1) as -> by lia.
    by rewrite (correlations_single_sample y_true y_pred D1).
Qed.

Lemma compute_metrics_domain_witness :
  (∃ m, compute_metrics [[1; 2]%R; [3; 5]%R] [[1; 3]%R; [2; 5]%R] empty_world
        = (Return m, log (scores_line m) empty_world))
  ∧ compute_metrics [[1; 2]%R; [3; 4]%R] [[1; 2]%R] empty_world
    = (Raise ValueError, empty_world).
Proof.
  split.
  - apply (proj1 (compute_metrics_domain [[1; 2]%R; [3; 5]%R] [[1; 3]%R; [2; 5]%R]
                    2 2 2 2 empty_world
                    ltac:(split; [reflexivity|repeat constructor])
                    ltac:(split; [reflexivity|repeat constructor]))).
    repeat split; lia.
  - apply (proj2 (compute_metrics_domain [[1; 2]%R; [3; 4]%R] [[1; 2]%R]
                    2 2 1 2 empty_world
                    ltac:(split; [reflexivity|repeat constructor])
                    ltac:(split; [reflexivity|repeat constructor]))).
    lia.
Defined.



(** X28.  [compute_metrics] prints its one summary line only when every
    metric was computed: if it raises, the world is exactly as before; if it
    returns, the only change is that line, which shows the returned values.
    It never touches a file. *)
Theorem compute_metrics_prints_on_success (y_true y_pred : matrix) (w w' : World)
    (r : result metrics) :
  compute_metrics y_true y_pred w = (r, w') →
  match r with
  | Raise _ => w' = w
  | Return m => w' = log (scores_line m) w
  end ∧ dirs w' = dirs w ∧ files w' = files w.
Proof.
  rewrite compute_metrics_run.
  destruct (Sklearn.check_reg_targets y_true y_pred) as [[]|e]; [|by intros [= <- <-]].
  destruct (correlations y_true y_pred) as [corr|e]; by intros [= <- <-].
Qed.

Lemma compute_metrics_prints_on_success_witness :
  match (compute_metrics [[1; 2]%R] [[1; 3]%R] empty_world).1 with
  | Raise _ => (compute_metrics [[1; 2]%R] [[1; 3]%R] empty_world).2 = empty_world
  | Return m =>
      (compute_metrics [[1; 2]%R] [[1; 3]%R] empty_world).2 = log (scores_line m) empty_world
  end ∧
  dirs (compute_metrics [[1; 2]%R] [[1; 3]%R] empty_world).2 = dirs empty_world ∧
  files (compute_metrics [[1; 2]%R] [[1; 3]%R] empty_world).2 = files empty_world.
Proof.
  apply (compute_metrics_prints_on_success [[1; 2]%R] [[1; 3]%R] empty_world).
  by destruct (compute_metrics [[1; 2]%R] [[1; 3]%R] empty_world).
Defined.

(** X29.  MSE, MAE and the per-output correlations do not depend on the
    order of the two arguments: if [compute_metrics(y_true, y_pred)]
    returns, so does [compute_metrics(y_pred, y_true)], with the same MSE,
    MAE and correlations. *)
Theorem compute_metrics_argument_order (y_true y_pred : matrix) (w w1 : World)
    (m : metrics) :
  compute_metrics y_true y_pred w = (Return m, w1) →
  ∃ m' w2, compute_metrics y_pred y_true w = (Return m', w2) ∧
           mse m' = mse m ∧ mae m' = mae m ∧
           corr m' = corr m ∧ corr_avg m' = corr_avg m.
Proof.
  rewrite !compute_metrics_run.
  destruct (Sklearn.check_reg_targets y_true y_pred) as [[]|e] eqn:Hc; [|done].
  rewrite (check_reg_targets_swap _ _ Hc).
  apply check_reg_targets_inv in Hc as (_ & _ & _ & Hcols).
  rewrite (correlations_swap y_true y_pred Hcols).
  destruct (correlations y_true y_pred) as [corr|e]; [|done].
  intros [= <- _]. eexists _, _. split; [reflexivity|].
  unfold metrics_values. simpl. split_and!; try done.
  - rewrite (zip_with_swap _ (columns y_pred)). f_equal.
    apply zip_with_pointwise. intros a b. apply mse_column_swap.
  - rewrite (zip_with_swap _ (columns y_pred)). f_equal.
    apply zip_with_pointwise. intros a b. apply mae_column_swap.
Qed.

Lemma compute_metrics_argument_order_witness :
  ∃ m m' w2,
    compute_metrics [[1; 3]%R; [2; 5]%R] [[1; 2]%R; [3; 5]%R] empty_world
      = (Return m', w2) ∧
    mse m' = mse m ∧ mae m' = mae m ∧ corr m' = corr m ∧ corr_avg m' = corr_avg m.
Proof.
  destruct (compute_metrics_returns [[1; 2]%R; [3; 5]%R] [[1; 3]%R; [2; 5]%R] 2 2
              empty_world) as (m & Hm);
    [split; [reflexivity|]; repeat constructor
    |split; [reflexivity|]; repeat constructor|lia|lia|].
  exists m. exact (compute_metrics_argument_order _ _ _ _ _ Hm).
Defined.
